(** * Platformer.py: the per-frame orchestration layer, embedded in Rocq

    The game drives the arcade / pymunk engine.  The engine is not part of the
    program: it is a parameter here, a [Host] record of oracles.  Every
    effectful call the program makes to it is appended to a log ([host]), and
    every answer the engine gives (ground contact, body position, overlap,
    tile map) is a function of that log.  A Python float is the rational it
    stands for ([Q]): comparisons, negation, [abs] and [int] are exact on
    it, while float addition and subtraction round, and are the host's
    [float_add] and [float_sub].  Python ints that only ever hold ints are
    [Z]. *)

From Stdlib Require Import ZArith QArith Qabs Qround List Bool String Lia.
From Stdlib Require Import Lqa.
Import ListNotations.
Local Open Scope Q_scope.

(* ------------------------------------------------------------------ *)
(** ** Python numerics *)

(** [a < b] on numbers, as a boolean. *)
Definition Qltb (a b : Q) : bool := negb (Qle_bool b a).

(** Python's [int(x)] on a float: truncation toward zero. *)
Definition py_int (x : Q) : Z := Z.quot (Qnum x) (Zpos (Qden x)).

(** A number whose value is an integer. *)
Definition is_integer (x : Q) : bool := Qeq_bool x (inject_Z (py_int x)).

(** The machine's floats, to run the model with: the binary64 number
    nearest to a rational, ties to the even mantissa, subnormals included
    (overflow to infinity is left out).  [n / d] is rounded to an integer
    first; the exponent [e] is the one that puts the mantissa of [n / d]
    in [2^52, 2^53), or -1074. *)
Definition round_half_even (n d : Z) : Z :=
  let q := (n / d)%Z in
  match (2 * (n mod d) ?= d)%Z with
  | Lt => q
  | Gt => (q + 1)%Z
  | Eq => if Z.even q then q else (q + 1)%Z
  end.

Definition binary64_exponent (n d : Z) : Z :=
  let e := (Z.log2 n - Z.log2 d - 52)%Z in
  let below :=
    if (0 <=? e)%Z then (n <? d * 2 ^ e * 2 ^ 52)%Z
    else (n * 2 ^ (- e) <? d * 2 ^ 52)%Z in
  Z.max (if below then e - 1 else e) (-1074).

Definition binary64_pos (n d : Z) : Q :=
  let e := binary64_exponent n d in
  if (0 <=? e)%Z
  then inject_Z (round_half_even n (d * 2 ^ e) * 2 ^ e)
  else Qred (round_half_even (n * 2 ^ (- e)) d # Z.to_pos (2 ^ (- e))).

Definition binary64 (x : Q) : Q :=
  match Qnum x with
  | Z0 => 0
  | Zpos n => binary64_pos (Zpos n) (Zpos (Qden x))
  | Zneg n => - binary64_pos (Zpos n) (Zpos (Qden x))
  end.

(* ------------------------------------------------------------------ *)
(** ** Module-level constants (lines 10-73) *)

Definition SPRITE_IMAGE_SIZE : Z := 128.
Definition SPRITE_SCALE : Q := 0.5.
Definition SPRITE_SIZE : Z := (py_int (inject_Z SPRITE_IMAGE_SIZE * SPRITE_SCALE) + 1)%Z.
Definition SCREEN_GRID_WIDTH : Z := 30.
Definition SCREEN_GRID_HEIGHT : Z := 20.
Definition SCREEN_WIDTH : Q := 1920.
Definition SCREEN_HEIGHT : Q := 1080.
Definition GRAVITY : Q := 1500.
Definition DEFAULT_DAMPING : Q := 1.0.
Definition PLAYER_DAMPING : Q := 0.4.
Definition PLAYER_FRICTION : Q := 1.0.
Definition WALL_FRICTION : Q := 0.7.
Definition DYNAMIC_ITEM_FRICTION : Q := 0.6.
Definition PLAYER_MASS : Q := 2.0.
Definition PLAYER_MAX_HORIZONTAL_SPEED : Q := 250.
Definition PLAYER_MAX_VERTICAL_SPEED : Q := 1300.
Definition PLAYER_MOVE_FORCE_ON_GROUND : Q := 8000.
Definition PLAYER_MOVE_FORCE_IN_AIR : Q := 900.
Definition PLAYER_JUMP_IMPULSE : Q := 1400.
Definition LEFT_VIEWPORT_MARGIN : Q := 900.
Definition RIGHT_VIEWPORT_MARGIN : Q := 900.
Definition BOTTOM_VIEWPORT_MARGIN : Q := 50.
Definition TOP_VIEWPORT_MARGIN : Q := 100.
Definition DEAD_ZONE : Q := 0.1.
Definition RIGHT_FACING : Z := 0.
Definition LEFT_FACING : Z := 1.
Definition DISTANCE_TO_CHANGE_TEXTURE : Q := 10.

(** arcade.key symbols (pyglet's key codes) used by the key callbacks. *)
Module key.
Definition SPACE : Z := 32.
Definition A : Z := 97.
Definition D : Z := 100.
Definition W : Z := 119.
Definition LEFT : Z := 65361.
Definition UP : Z := 65362.
Definition RIGHT : Z := 65363.
End key.

(* ------------------------------------------------------------------ *)
(** ** Data *)

(** A tile sprite made by the map loader, known by its object identity; its
    geometry is owned by the host. *)
Definition Sprite := nat.

(** The texture shown: one of the pairs loaded in [PlayerSprite.__init__],
    indexed by the facing direction (and by the frame for the walk cycle). *)
Inductive Texture :=
| idle_texture_pair (facing : Z)
| jump_texture_pair (facing : Z)
| fall_texture_pair (facing : Z)
| walk_textures (frame : Z) (facing : Z).

Record PlayerSprite := mkPlayerSprite {
  center_x : Q;
  center_y : Q;
  texture : Texture;
  character_face_direction : Z;
  current_texture : Z;
  x_odometer : Q
}.

Inductive BodyType := DYNAMIC | STATIC.

(** The effectful calls the program makes to the engine. *)
Inductive Command :=
| NewEngine (damping : Q) (gravity : Q * Q)
| AddSprite (position : Q * Q) (friction mass : Q) (moment_inf : bool)
            (collision_type : string) (max_horizontal max_vertical : Q)
| AddSpriteList (sprites : list Sprite) (friction : Q)
                (collision_type : string) (body_type : BodyType)
| ApplyForce (force : Q * Q)
| SetFriction (friction : Q)
| ApplyImpulse (impulse : Q * Q)
| Step
| SetViewport (left right bottom top : Q)
| RemoveFromSpriteLists (s : Sprite)
| PlaySound.

(** What [arcade.tilemap.read_tmx] and [process_layer] give for a level. *)
Record TileMap := mkTileMap {
  map_width : Z;
  Platforms : list Sprite;
  Dynamic_Items : list Sprite;
  Valuables : list Sprite
}.

(** The engine and the machine, as the program sees them.  [read_tmx] is
    [None] when the map resource is missing or malformed (the call raises).
    [float_add] and [float_sub] are [+] and [-] on floats: whatever the
    machine's arithmetic gives, rounding included. *)
Record Host := mkHost {
  float_add : Q -> Q -> Q;
  float_sub : Q -> Q -> Q;
  is_on_ground : list Command -> bool;
  body_position : list Command -> Q * Q;
  check_for_collision : list Command -> PlayerSprite -> Sprite -> bool;
  read_tmx : Z -> option TileMap;
  sprite_left : PlayerSprite -> Q;
  sprite_right : PlayerSprite -> Q;
  sprite_top : PlayerSprite -> Q;
  sprite_bottom : PlayerSprite -> Q
}.

(** The window once [setup] has run.  The fields [__init__] leaves [None]
    ([player_sprite], the sprite lists, [physics_engine]) are assigned by
    [setup] before any callback can run; [physics_engine] and the renderer
    are the log [host].  [player_list] (the one-element draw list) and the
    loaded sound are not modelled. *)
Record GameWindow := mkGameWindow {
  player_sprite : PlayerSprite;
  wall_list : list Sprite;
  item_list : list Sprite;
  gem_list : list Sprite;
  left_pressed : bool;
  right_pressed : bool;
  view_bottom : Q;
  view_left : Q;
  level : Z;
  end_of_map : Z;
  host : list Command
}.

(* ------------------------------------------------------------------ *)
(** ** PlayerSprite *)

(** [PlayerSprite.__init__] (lines 78-111); the position is given by the
    caller right after construction. *)
Definition PlayerSprite_init : PlayerSprite :=
  {| center_x := 0; center_y := 0;
     texture := idle_texture_pair 0;
     character_face_direction := RIGHT_FACING;
     current_texture := 0;
     x_odometer := 0 |}.

Definition set_position (x y : Q) (p : PlayerSprite) : PlayerSprite :=
  {| center_x := x; center_y := y; texture := texture p;
     character_face_direction := character_face_direction p;
     current_texture := current_texture p; x_odometer := x_odometer p |}.

Definition set_texture (t : Texture) (p : PlayerSprite) : PlayerSprite :=
  {| center_x := center_x p; center_y := center_y p; texture := t;
     character_face_direction := character_face_direction p;
     current_texture := current_texture p; x_odometer := x_odometer p |}.

Definition set_face (f : Z) (p : PlayerSprite) : PlayerSprite :=
  {| center_x := center_x p; center_y := center_y p; texture := texture p;
     character_face_direction := f;
     current_texture := current_texture p; x_odometer := x_odometer p |}.

Definition set_odometer (o : Q) (p : PlayerSprite) : PlayerSprite :=
  {| center_x := center_x p; center_y := center_y p; texture := texture p;
     character_face_direction := character_face_direction p;
     current_texture := current_texture p; x_odometer := o |}.

Definition set_current_texture (i : Z) (p : PlayerSprite) : PlayerSprite :=
  {| center_x := center_x p; center_y := center_y p; texture := texture p;
     character_face_direction := character_face_direction p;
     current_texture := i; x_odometer := x_odometer p |}.

(** Lines 115-118: which way to face. *)
Definition update_facing (dx : Q) (p : PlayerSprite) : PlayerSprite :=
  if Qltb dx (- DEAD_ZONE) && (character_face_direction p =? RIGHT_FACING)%Z
  then set_face LEFT_FACING p
  else if Qltb DEAD_ZONE dx && (character_face_direction p =? LEFT_FACING)%Z
  then set_face RIGHT_FACING p
  else p.

(** Lines 141-150: the walk cycle. *)
Definition advance_walk (p : PlayerSprite) : PlayerSprite :=
  if Qltb DISTANCE_TO_CHANGE_TEXTURE (Qabs (x_odometer p)) then
    let p := set_odometer 0 p in
    let p := set_current_texture (current_texture p + 1) p in
    let p := if (7 <? current_texture p)%Z then set_current_texture 0 p else p in
    set_texture (walk_textures (current_texture p) (character_face_direction p)) p
  else p.

(** [PlayerSprite.pymunk_moved] (lines 113-150).  [physics_engine] is the log
    of the engine that calls back; [d_angle] is not read.  The odometer is
    added to in floats (line 124).  The texture lookups of lines 129-150 are
    within their lists for a facing of 0 or 1 and a frame within 0..7, which
    is what every sprite the program makes has; the [IndexError] they raise
    otherwise is not modelled. *)
Definition pymunk_moved (h : Host) (physics_engine : list Command)
    (dx dy : Q) (p : PlayerSprite) : PlayerSprite :=
  let p := update_facing dx p in
  let on_ground := is_on_ground h physics_engine in
  let p := set_odometer (float_add h (x_odometer p) dx) p in
  let idle_or_walk :=
    if Qle_bool (Qabs dx) DEAD_ZONE then
      set_texture (idle_texture_pair (character_face_direction p)) p
    else advance_walk p in
  if negb on_ground then
    if Qltb DEAD_ZONE dy then
      set_texture (jump_texture_pair (character_face_direction p)) p
    else if Qltb dy (- DEAD_ZONE) then
      set_texture (fall_texture_pair (character_face_direction p)) p
    else idle_or_walk
  else idle_or_walk.

(* ------------------------------------------------------------------ *)
(** ** GameWindow *)

Definition set_player (p : PlayerSprite) (w : GameWindow) : GameWindow :=
  {| player_sprite := p; wall_list := wall_list w; item_list := item_list w;
     gem_list := gem_list w; left_pressed := left_pressed w;
     right_pressed := right_pressed w; view_bottom := view_bottom w;
     view_left := view_left w; level := level w; end_of_map := end_of_map w;
     host := host w |}.

Definition set_pressed (l r : bool) (w : GameWindow) : GameWindow :=
  {| player_sprite := player_sprite w; wall_list := wall_list w;
     item_list := item_list w; gem_list := gem_list w; left_pressed := l;
     right_pressed := r; view_bottom := view_bottom w;
     view_left := view_left w; level := level w; end_of_map := end_of_map w;
     host := host w |}.

Definition set_view (bottom left : Q) (w : GameWindow) : GameWindow :=
  {| player_sprite := player_sprite w; wall_list := wall_list w;
     item_list := item_list w; gem_list := gem_list w;
     left_pressed := left_pressed w; right_pressed := right_pressed w;
     view_bottom := bottom; view_left := left; level := level w;
     end_of_map := end_of_map w; host := host w |}.

Definition set_level (n : Z) (w : GameWindow) : GameWindow :=
  {| player_sprite := player_sprite w; wall_list := wall_list w;
     item_list := item_list w; gem_list := gem_list w;
     left_pressed := left_pressed w; right_pressed := right_pressed w;
     view_bottom := view_bottom w; view_left := view_left w; level := n;
     end_of_map := end_of_map w; host := host w |}.

Definition set_lists (walls items gems : list Sprite) (w : GameWindow)
    : GameWindow :=
  {| player_sprite := player_sprite w; wall_list := walls;
     item_list := items; gem_list := gems;
     left_pressed := left_pressed w; right_pressed := right_pressed w;
     view_bottom := view_bottom w; view_left := view_left w;
     level := level w; end_of_map := end_of_map w; host := host w |}.

(** One more call to the engine. *)
Definition call (c : Command) (w : GameWindow) : GameWindow :=
  {| player_sprite := player_sprite w; wall_list := wall_list w;
     item_list := item_list w; gem_list := gem_list w;
     left_pressed := left_pressed w; right_pressed := right_pressed w;
     view_bottom := view_bottom w; view_left := view_left w;
     level := level w; end_of_map := end_of_map w;
     host := host w ++ [c] |}.

(** [GameWindow.__init__] (lines 156-190).  The fields the constructor sets to
    [None] carry here the empty values [setup] overwrites. *)
Definition GameWindow_init : GameWindow :=
  {| player_sprite := PlayerSprite_init;
     wall_list := []; item_list := []; gem_list := [];
     left_pressed := false; right_pressed := false;
     view_bottom := 0; view_left := 0;
     level := 1; end_of_map := 0; host := [] |}.

(** Where [setup] puts the player: grid cell (2, 2). *)
Definition spawn_x : Q := inject_Z (SPRITE_SIZE * 2) + inject_Z SPRITE_SIZE / 2.
Definition spawn_y : Q := inject_Z (SPRITE_SIZE * 2) + inject_Z SPRITE_SIZE / 2.

(** [GameWindow.setup] (lines 193-258).  [None]: reading the map raised.
    The other ways the call can raise (a texture of the new sprite that
    does not load) are not modelled. *)
Definition setup (h : Host) (lvl : Z) (w : GameWindow) : option GameWindow :=
  match read_tmx h lvl with
  | None => None
  | Some my_map =>
    let p := set_position spawn_x spawn_y PlayerSprite_init in
    let walls := Platforms my_map in
    let items := Dynamic_Items my_map in
    let gems := Valuables my_map in
    Some
      {| player_sprite := p;
         wall_list := walls; item_list := items; gem_list := gems;
         left_pressed := left_pressed w; right_pressed := right_pressed w;
         view_bottom := view_bottom w; view_left := view_left w;
         level := level w;
         end_of_map := (map_width my_map * SCREEN_GRID_WIDTH + 800)%Z;
         host := host w ++
           [ NewEngine DEFAULT_DAMPING (0, - GRAVITY);
             AddSprite (center_x p, center_y p) PLAYER_FRICTION PLAYER_MASS
                       true "player" PLAYER_MAX_HORIZONTAL_SPEED
                       PLAYER_MAX_VERTICAL_SPEED;
             AddSpriteList walls WALL_FRICTION "wall" STATIC;
             AddSpriteList items DYNAMIC_ITEM_FRICTION "item" DYNAMIC;
             AddSpriteList gems DYNAMIC_ITEM_FRICTION "item" DYNAMIC ] |}
  end.

(** [main] (lines 386-389): construct the window, set up its level.  Of the
    ways it can raise only the map of [setup] is modelled, not the sound and
    the textures the constructors load. *)
Definition main (h : Host) : option GameWindow :=
  setup h (level GameWindow_init) GameWindow_init.

(** [GameWindow.on_key_press] (lines 261-271). *)
Definition on_key_press (h : Host) (k modifiers : Z) (w : GameWindow)
    : GameWindow :=
  if ((k =? key.LEFT) || (k =? key.A))%Z then
    set_pressed true (right_pressed w) w
  else if ((k =? key.RIGHT) || (k =? key.D))%Z then
    set_pressed (left_pressed w) true w
  else if ((k =? key.UP) || (k =? key.SPACE) || (k =? key.W))%Z then
    if is_on_ground h (host w) then
      call (ApplyImpulse (0, PLAYER_JUMP_IMPULSE)) w
    else w
  else w.

(** [GameWindow.on_key_release] (lines 274-278). *)
Definition on_key_release (k modifiers : Z) (w : GameWindow) : GameWindow :=
  if ((k =? key.LEFT) || (k =? key.A))%Z then
    set_pressed false (right_pressed w) w
  else if ((k =? key.RIGHT) || (k =? key.D))%Z then
    set_pressed (left_pressed w) false w
  else w.

(** [on_update], lines 283-311: held keys to force and friction. *)
Definition update_player_forces (h : Host) (w : GameWindow) : GameWindow :=
  let on_ground := is_on_ground h (host w) in
  if left_pressed w && negb (right_pressed w) then
    let force :=
      if on_ground then (- PLAYER_MOVE_FORCE_ON_GROUND, 0)
      else (- PLAYER_MOVE_FORCE_IN_AIR, 0) in
    call (SetFriction 0) (call (ApplyForce force) w)
  else if right_pressed w && negb (left_pressed w) then
    let force :=
      if on_ground then (PLAYER_MOVE_FORCE_ON_GROUND, 0)
      else (PLAYER_MOVE_FORCE_IN_AIR, 0) in
    call (SetFriction 0) (call (ApplyForce force) w)
  else call (SetFriction 1.0) w.

(** [on_update], lines 314-320: the end of the level. *)
Definition check_level_end (h : Host) (w : GameWindow) : option GameWindow :=
  if Qle_bool (inject_Z (end_of_map w)) (center_x (player_sprite w)) then
    let w := set_level (level w + 1) w in
    setup h (level w) w
  else Some w.

(** Python's [x + y] and [x - y] where [y] is an int: exact when [x] is an
    int too, the machine's operation when [x] is a float. *)
Definition py_add (h : Host) (x_is_float : bool) (x y : Q) : Q :=
  if x_is_float then float_add h x y else x + y.

Definition py_sub (h : Host) (x_is_float : bool) (x y : Q) : Q :=
  if x_is_float then float_sub h x y else x - y.

(** [on_update], lines 325-349: the four margin checks, before snapping.
    Gives [(view_left, view_bottom, changed)].  The two offsets are Python
    ints when the checks start (0 from the constructor, [int(...)] after a
    scroll) and floats from the first check that moves them; the edges of
    the player are floats, so every update is in float arithmetic. *)
Definition scroll_offsets (h : Host) (w : GameWindow) : Q * Q * bool :=
  let p := player_sprite w in
  let changed := false in
  let '(vl, vl_float) := (view_left w, false) in
  let '(vb, vb_float) := (view_bottom w, false) in
  let left_boundary := py_add h vl_float vl LEFT_VIEWPORT_MARGIN in
  let '(vl, vl_float, changed) :=
    if Qltb (sprite_left h p) left_boundary
    then (float_sub h vl (float_sub h left_boundary (sprite_left h p)),
          true, true)
    else (vl, vl_float, changed) in
  let right_boundary :=
    py_sub h vl_float (py_add h vl_float vl SCREEN_WIDTH)
           RIGHT_VIEWPORT_MARGIN in
  let '(vl, vl_float, changed) :=
    if Qltb right_boundary (sprite_right h p)
    then (float_add h vl (float_sub h (sprite_right h p) right_boundary),
          true, true)
    else (vl, vl_float, changed) in
  let top_boundary :=
    py_sub h vb_float (py_add h vb_float vb SCREEN_HEIGHT)
           TOP_VIEWPORT_MARGIN in
  let '(vb, vb_float, changed) :=
    if Qltb top_boundary (sprite_top h p)
    then (float_add h vb (float_sub h (sprite_top h p) top_boundary),
          true, true)
    else (vb, vb_float, changed) in
  let bottom_boundary := py_add h vb_float vb BOTTOM_VIEWPORT_MARGIN in
  let '(vb, vb_float, changed) :=
    if Qltb (sprite_bottom h p) bottom_boundary
    then (float_sub h vb (float_sub h bottom_boundary (sprite_bottom h p)),
          true, true)
    else (vb, vb_float, changed) in
  (vl, vb, changed).

(** [on_update], lines 322-360: screen scrolling. *)
Definition manage_scrolling (h : Host) (w : GameWindow) : GameWindow :=
  let '(vl, vb, changed) := scroll_offsets h w in
  if changed then
    let vb := inject_Z (py_int vb) in
    let vl := inject_Z (py_int vl) in
    call (SetViewport vl (SCREEN_WIDTH + vl) vb (SCREEN_HEIGHT + vb))
         (set_view vb vl w)
  else w.

(** [list.remove]: drop the first occurrence, if any. *)
Fixpoint remove_first (s : Sprite) (l : list Sprite) : list Sprite :=
  match l with
  | [] => []
  | x :: l' => if Nat.eqb s x then l' else x :: remove_first s l'
  end.

(** [Sprite.remove_from_sprite_lists]: the sprite leaves every list that
    holds it, and the engine. *)
Definition remove_from_sprite_lists (s : Sprite) (w : GameWindow) : GameWindow :=
  call (RemoveFromSpriteLists s)
       (set_lists (remove_first s (wall_list w)) (remove_first s (item_list w))
                  (remove_first s (gem_list w)) w).

(** [arcade.check_for_collision_with_list player gem_list]. *)
Definition check_for_collision_with_list (h : Host) (w : GameWindow)
    : list Sprite :=
  filter (check_for_collision h (host w) (player_sprite w)) (gem_list w).

(** [on_update], lines 363-372: pick up the gems the player touches. *)
Definition collect_gems (h : Host) (w : GameWindow) : GameWindow :=
  let gem_hit_list := check_for_collision_with_list h w in
  fold_left (fun w gem => call PlaySound (remove_from_sprite_lists gem w))
            gem_hit_list w.

(** [physics_engine.step()], first half: the world advances and the player
    sprite is moved to where its body now is.  Gives the displacement. *)
Definition advance_world (h : Host) (w : GameWindow) : GameWindow * (Q * Q) :=
  let w := call Step w in
  let '(x, y) := body_position h (host w) in
  let p := player_sprite w in
  (set_player (set_position x y p) w, (x - center_x p, y - center_y p)).

(** Second half: the engine reports the displacement to the sprite. *)
Definition animate (h : Host) (d : Q * Q) (w : GameWindow) : GameWindow :=
  set_player (pymunk_moved h (host w) (fst d) (snd d) (player_sprite w)) w.

(** [on_update], line 374. *)
Definition physics_step (h : Host) (w : GameWindow) : GameWindow :=
  let '(w, d) := advance_world h w in animate h d w.

(** [GameWindow.on_update] (lines 281-374).  [None]: the reload of line 320
    raised on its map; no other exception of a tick is modelled. *)
Definition on_update (h : Host) (delta_time : Q) (w : GameWindow)
    : option GameWindow :=
  let w := update_player_forces h w in
  match check_level_end h w with
  | None => None
  | Some w =>
    let w := manage_scrolling h w in
    let w := collect_gems h w in
    Some (physics_step h w)
  end.

(* ------------------------------------------------------------------ *)
(** ** The event loop *)

(** What [arcade.run] delivers to the window. *)
Inductive Event :=
| KeyPress (k modifiers : Z)
| KeyRelease (k modifiers : Z)
| Update (delta_time : Q).

Definition dispatch (h : Host) (ev : Event) (w : GameWindow)
    : option GameWindow :=
  match ev with
  | KeyPress k m => Some (on_key_press h k m w)
  | KeyRelease k m => Some (on_key_release k m w)
  | Update dt => on_update h dt w
  end.

Fixpoint run (h : Host) (evs : list Event) (w : GameWindow)
    : option GameWindow :=
  match evs with
  | [] => Some w
  | ev :: evs' =>
    match dispatch h ev w with
    | None => None
    | Some w' => run h evs' w'
    end
  end.

(** The windows a run of the program can be in between two callbacks. *)
Inductive reachable (h : Host) : GameWindow -> Prop :=
| reach_main w : main h = Some w -> reachable h w
| reach_event w ev w' :
    reachable h w -> dispatch h ev w = Some w' -> reachable h w'.

(** A run of animation updates on the player sprite, each with its own engine
    log and displacement. *)
Fixpoint moved_many (h : Host) (moves : list (list Command * Q * Q))
    (p : PlayerSprite) : PlayerSprite :=
  match moves with
  | [] => p
  | (e, dx, dy) :: rest => moved_many h rest (pymunk_moved h e dx dy p)
  end.

(* ------------------------------------------------------------------ *)
(** ** Reading the log *)

Definition is_impulse (c : Command) : bool :=
  match c with ApplyImpulse _ => true | _ => false end.

Definition is_sound (c : Command) : bool :=
  match c with PlaySound => true | _ => false end.

Definition is_step (c : Command) : bool :=
  match c with Step => true | _ => false end.

Definition is_removal_of (s : Sprite) (c : Command) : bool :=
  match c with RemoveFromSpriteLists s' => Nat.eqb s s' | _ => false end.

Definition count (f : Command -> bool) (l : list Command) : nat :=
  List.length (filter f l).

(** The offsets of every viewport call in a log are integers. *)
Definition integral_viewport (c : Command) : bool :=
  match c with
  | SetViewport l r b t =>
    is_integer l && is_integer r && is_integer b && is_integer t
  | _ => true
  end.

(* ------------------------------------------------------------------ *)
(** ** The spec's words, for comparison with the code *)

(** The tick in the order of spec section 4.4: input translation, physics
    step, level check, camera, collectibles, animation. *)
Definition on_update_spec_order (h : Host) (delta_time : Q) (w : GameWindow)
    : option GameWindow :=
  let w := update_player_forces h w in
  let '(w, d) := advance_world h w in
  match check_level_end h w with
  | None => None
  | Some w =>
    let w := manage_scrolling h w in
    let w := collect_gems h w in
    Some (animate h d w)
  end.

(** The table of spec section 8 for the input translator: the commands for
    each combination of held keys. *)
Definition input_table (left right on_ground : bool) : list Command :=
  let magnitude :=
    if on_ground then PLAYER_MOVE_FORCE_ON_GROUND
    else PLAYER_MOVE_FORCE_IN_AIR in
  match left, right with
  | true, false => [ApplyForce (- magnitude, 0); SetFriction 0]
  | false, true => [ApplyForce (magnitude, 0); SetFriction 0]
  | true, true => [SetFriction 1.0]
  | false, false => [SetFriction 1.0]
  end.

(* ------------------------------------------------------------------ *)
(** ** A small concrete host, to run the model on *)

(** Level 1 and 2 exist; level 3 does not. *)
Definition demo_map (lvl : Z) : option TileMap :=
  if (lvl =? 1)%Z then
    Some {| map_width := 100; Platforms := [1; 2; 3]%nat;
            Dynamic_Items := [4; 5]%nat; Valuables := [7; 8; 9]%nat |}
  else if (lvl =? 2)%Z then
    Some {| map_width := 50; Platforms := [11; 12]%nat;
            Dynamic_Items := [14]%nat; Valuables := [17; 18]%nat |}
  else None.

(** Floats are binary64.  The body is at [path n] after [n] steps; the
    player's box is 64 by 64; gem 7 lies on the spawn cell, gem 8 is touched
    right of x = 3000. *)
Definition demo_host (path : nat -> Q * Q) (ground : bool) : Host :=
  {| float_add := fun x y => binary64 (x + y);
     float_sub := fun x y => binary64 (x - y);
     is_on_ground := fun _ => ground;
     body_position := fun e => path (count is_step e);
     check_for_collision := fun _ p s =>
       (Nat.eqb s 7 && Qle_bool (center_x p) 200)
       || (Nat.eqb s 8 && Qle_bool 3000 (center_x p));
     read_tmx := demo_map;
     sprite_left := fun p => center_x p - 32;
     sprite_right := fun p => center_x p + 32;
     sprite_top := fun p => center_y p + 32;
     sprite_bottom := fun p => center_y p - 32 |}.

(** A walk to the right, 40 pixels a step, two pixels up. *)
Definition demo_path (n : nat) : Q * Q :=
  (spawn_x + 40 * inject_Z (Z.of_nat n), spawn_y + 2 * inject_Z (Z.of_nat n)).

(** The player walks on the ground. *)
Definition demo : Host := demo_host demo_path true.

Definition demo_window : GameWindow :=
  match main demo with
  | Some w => w
  | None => GameWindow_init
  end.

(** The same walk, in the air. *)
Definition demo_air : Host := demo_host demo_path false.

(** A climb: 40 pixels right and 900 up a step. *)
Definition climb_path (n : nat) : Q * Q :=
  (spawn_x + 40 * inject_Z (Z.of_nat n), spawn_y + 900 * inject_Z (Z.of_nat n)).

Definition demo_climb : Host := demo_host climb_path true.

(** The climbing demo after its first tick. *)
Definition demo_climb_window : GameWindow :=
  match on_update demo_climb 0 demo_window with
  | Some w => w
  | None => GameWindow_init
  end.

(** A sprint: close to the end of level 1 after one step, beyond the end
    of both levels from the second step on. *)
Definition sprint_path (n : nat) : Q * Q :=
  match n with
  | O => (spawn_x, spawn_y)
  | S O => (3700, spawn_y)
  | _ => (4000, spawn_y)
  end.

Definition demo_sprint : Host := demo_host sprint_path true.

(** The sprint after [n] ticks. *)
Definition demo_sprint_window (n : nat) : GameWindow :=
  match run demo_sprint (repeat (Update 0) n) demo_window with
  | Some w => w
  | None => GameWindow_init
  end.

(** The demo window with the player carried to the end of level 1. *)
Definition demo_window_at_end : GameWindow :=
  set_player (set_position 3800 spawn_y (player_sprite demo_window))
             demo_window.

(** The map of the demo's second level. *)
Definition demo_map_2 : TileMap :=
  {| map_width := 50; Platforms := [11; 12]%nat;
     Dynamic_Items := [14]%nat; Valuables := [17; 18]%nat |}.

(* ------------------------------------------------------------------ *)
(** ** The commands of each part of a tick *)

(** Several calls in a row. *)
Definition calls (cs : list Command) (w : GameWindow) : GameWindow :=
  {| player_sprite := player_sprite w; wall_list := wall_list w;
     item_list := item_list w; gem_list := gem_list w;
     left_pressed := left_pressed w; right_pressed := right_pressed w;
     view_bottom := view_bottom w; view_left := view_left w;
     level := level w; end_of_map := end_of_map w;
     host := host w ++ cs |}.

(** What [setup] tells the engine for a map. *)
Definition setup_commands (m : TileMap) : list Command :=
  [ NewEngine DEFAULT_DAMPING (0, - GRAVITY);
    AddSprite (spawn_x, spawn_y) PLAYER_FRICTION PLAYER_MASS true "player"
              PLAYER_MAX_HORIZONTAL_SPEED PLAYER_MAX_VERTICAL_SPEED;
    AddSpriteList (Platforms m) WALL_FRICTION "wall" STATIC;
    AddSpriteList (Dynamic_Items m) DYNAMIC_ITEM_FRICTION "item" DYNAMIC;
    AddSpriteList (Valuables m) DYNAMIC_ITEM_FRICTION "item" DYNAMIC ].

(** What the level check tells the engine: nothing, or a whole [setup]. *)
Definition level_commands (h : Host) (w : GameWindow) : list Command :=
  if Qle_bool (inject_Z (end_of_map w)) (center_x (player_sprite w)) then
    match read_tmx h (level w + 1) with
    | Some m => setup_commands m
    | None => []
    end
  else [].

(** What the camera update tells the renderer. *)
Definition scroll_commands (h : Host) (w : GameWindow) : list Command :=
  let '(vl, vb, changed) := scroll_offsets h w in
  if changed then
    [ SetViewport (inject_Z (py_int vl)) (SCREEN_WIDTH + inject_Z (py_int vl))
                  (inject_Z (py_int vb)) (SCREEN_HEIGHT + inject_Z (py_int vb)) ]
  else [].

(** What the pickup loop does for a list of hits. *)
Definition gem_commands (hits : list Sprite) : list Command :=
  flat_map (fun gem => [RemoveFromSpriteLists gem; PlaySound]) hits.

(** The commands of a tick before its physics step: [w] is the window the
    tick starts from, [w2] the one its level check hands on. *)
Definition before_step (h : Host) (w w2 : GameWindow) : list Command :=
  input_table (left_pressed w) (right_pressed w) (is_on_ground h (host w))
  ++ level_commands h (update_player_forces h w)
  ++ scroll_commands h w2
  ++ gem_commands (check_for_collision_with_list h (manage_scrolling h w2)).

(** The keys that jump. *)
Definition is_jump_key (k : Z) : bool :=
  ((k =? key.UP) || (k =? key.SPACE) || (k =? key.W))%Z.

Definition is_jump_press (ev : Event) : bool :=
  match ev with KeyPress k _ => is_jump_key k | _ => false end.

(** Both offsets of the camera are integers. *)
Definition integer_offsets (w : GameWindow) : Prop :=
  is_integer (view_left w) = true /\ is_integer (view_bottom w) = true.

(* ------------------------------------------------------------------ *)
(** ** More ways to read a window and its log *)

Definition is_removal (c : Command) : bool :=
  match c with RemoveFromSpriteLists _ => true | _ => false end.

Definition is_force (c : Command) : bool :=
  match c with ApplyForce _ => true | _ => false end.

Definition is_friction (c : Command) : bool :=
  match c with SetFriction _ => true | _ => false end.

Definition is_new_engine (c : Command) : bool :=
  match c with NewEngine _ _ => true | _ => false end.

Definition is_update (ev : Event) : bool :=
  match ev with Update _ => true | _ => false end.

(** How many ticks a list of events holds. *)
Definition count_updates (evs : list Event) : nat :=
  List.length (filter is_update evs).

(** The keys that move left, and those that move right. *)
Definition is_left_key (k : Z) : bool := ((k =? key.LEFT) || (k =? key.A))%Z.
Definition is_right_key (k : Z) : bool := ((k =? key.RIGHT) || (k =? key.D))%Z.

(** A command with the only arguments the program ever gives it: a
    horizontal force of 8000 or 900 either way, friction 0 or 1, the jump
    impulse. *)
Definition sane_command (c : Command) : bool :=
  match c with
  | ApplyForce (fx, fy) =>
    (Qeq_bool (Qabs fx) PLAYER_MOVE_FORCE_ON_GROUND
     || Qeq_bool (Qabs fx) PLAYER_MOVE_FORCE_IN_AIR) && Qeq_bool fy 0
  | SetFriction f => Qeq_bool f 0 || Qeq_bool f 1
  | ApplyImpulse (ix, iy) => Qeq_bool ix 0 && Qeq_bool iy PLAYER_JUMP_IMPULSE
  | _ => true
  end.

(** An index into a texture pair, and one into the eight walk frames. *)
Definition valid_face (f : Z) : bool :=
  ((f =? RIGHT_FACING) || (f =? LEFT_FACING))%Z.

Definition valid_frame (i : Z) : bool := ((0 <=? i) && (i <=? 7))%Z.

Definition valid_texture (t : Texture) : bool :=
  match t with
  | idle_texture_pair f | jump_texture_pair f | fall_texture_pair f =>
    valid_face f
  | walk_textures i f => valid_frame i && valid_face f
  end.

(** Every texture lookup of the sprite is within its list. *)
Definition valid_sprite (p : PlayerSprite) : bool :=
  valid_face (character_face_direction p)
  && valid_frame (current_texture p)
  && valid_texture (texture p).

(* ================================================================== *)
(** * Properties *)

(** Case analysis on every condition the goal branches on. *)
Ltac case_ifs :=
  repeat match goal with
         | |- context [if ?b then _ else _] => destruct b
         end.

(** ** Numbers *)

Lemma Qltb_lt (a b : Q) : Qltb a b = true <-> a < b.
Proof.
  unfold Qltb. rewrite negb_true_iff. split.
  - intros E. apply Qnot_le_lt. intros L.
    apply Qle_bool_iff in L. congruence.
  - intros L. destruct (Qle_bool b a) eqn:E; [|reflexivity].
    apply Qle_bool_iff in E. exfalso. exact (Qlt_not_le _ _ L E).
Qed.

Lemma Qltb_ge (a b : Q) : Qltb a b = false <-> b <= a.
Proof.
  unfold Qltb. rewrite negb_false_iff. apply Qle_bool_iff.
Qed.

Lemma py_int_inject_Z (z : Z) : py_int (inject_Z z) = z.
Proof. unfold py_int. simpl. apply Z.quot_1_r. Qed.

Lemma is_integer_inject_Z (z : Z) : is_integer (inject_Z z) = true.
Proof.
  unfold is_integer. rewrite py_int_inject_Z. apply Qeq_bool_iff. reflexivity.
Qed.

Lemma is_integer_eq (x : Q) (z : Z) : x == inject_Z z -> is_integer x = true.
Proof.
  intros E. unfold is_integer. apply Qeq_bool_iff.
  assert (P : py_int x = z).
  { unfold py_int. destruct x as [n d]. unfold Qeq in E. simpl in *.
    rewrite Z.mul_1_r in E. subst n. apply Z.quot_mul. discriminate. }
  rewrite P. exact E.
Qed.

(** [int] is the floor of a number that is not negative ... *)
Lemma py_int_floor (x : Q) : 0 <= x -> py_int x = Qfloor x.
Proof.
  destruct x as [n d]. unfold Qle, py_int, Qfloor. simpl.
  rewrite Z.mul_1_r. intros N. apply Z.quot_div_nonneg; lia.
Qed.

(** ... and the ceiling of one that is not positive. *)
Lemma py_int_ceiling (x : Q) : x <= 0 -> py_int x = Qceiling x.
Proof.
  destruct x as [n d]. unfold Qle, py_int, Qceiling, Qfloor. simpl.
  rewrite Z.mul_1_r. intros N.
  rewrite <- (Z.quot_div_nonneg (- n) (Zpos d)) by lia.
  rewrite Z.quot_opp_l by discriminate. lia.
Qed.

(** ** The player sprite *)

Lemma update_facing_fields (dx : Q) (p : PlayerSprite) :
  center_x (update_facing dx p) = center_x p /\
  center_y (update_facing dx p) = center_y p /\
  current_texture (update_facing dx p) = current_texture p /\
  x_odometer (update_facing dx p) = x_odometer p.
Proof.
  unfold update_facing.
  destruct (_ && _); [|destruct (_ && _)]; simpl; auto.
Qed.

Lemma advance_walk_face (p : PlayerSprite) :
  character_face_direction (advance_walk p) = character_face_direction p.
Proof.
  unfold advance_walk. destruct (Qltb _ _); [|reflexivity].
  simpl. destruct (7 <? _)%Z; reflexivity.
Qed.

Lemma pymunk_moved_face (h : Host) (e : list Command) (dx dy : Q)
    (p : PlayerSprite) :
  character_face_direction (pymunk_moved h e dx dy p)
  = character_face_direction (update_facing dx p).
Proof.
  unfold pymunk_moved. cbv zeta.
  case_ifs; simpl; rewrite ?advance_walk_face; reflexivity.
Qed.

Lemma pymunk_moved_position (h : Host) (e : list Command) (dx dy : Q)
    (p : PlayerSprite) :
  center_x (pymunk_moved h e dx dy p) = center_x p /\
  center_y (pymunk_moved h e dx dy p) = center_y p.
Proof.
  destruct (update_facing_fields dx p) as (X & Y & _).
  unfold pymunk_moved, advance_walk.
  case_ifs; simpl; auto.
Qed.

(** What one facing update can do. *)
Lemma update_facing_cases (dx : Q) (p : PlayerSprite) :
  (dx < - DEAD_ZONE /\ character_face_direction p = RIGHT_FACING /\
   character_face_direction (update_facing dx p) = LEFT_FACING) \/
  (DEAD_ZONE < dx /\ character_face_direction p = LEFT_FACING /\
   character_face_direction (update_facing dx p) = RIGHT_FACING) \/
  update_facing dx p = p.
Proof.
  unfold update_facing.
  destruct (Qltb dx (- DEAD_ZONE)) eqn:L;
    destruct (character_face_direction p =? RIGHT_FACING)%Z eqn:R; simpl.
  - left. apply Qltb_lt in L. apply Z.eqb_eq in R. auto.
  - destruct (Qltb DEAD_ZONE dx) eqn:G;
      destruct (character_face_direction p =? LEFT_FACING)%Z eqn:F; simpl; auto.
    right; left. apply Qltb_lt in G. apply Z.eqb_eq in F. auto.
  - destruct (Qltb DEAD_ZONE dx) eqn:G;
      destruct (character_face_direction p =? LEFT_FACING)%Z eqn:F; simpl; auto.
    right; left. apply Qltb_lt in G. apply Z.eqb_eq in F. auto.
  - destruct (Qltb DEAD_ZONE dx) eqn:G;
      destruct (character_face_direction p =? LEFT_FACING)%Z eqn:F; simpl; auto.
    right; left. apply Qltb_lt in G. apply Z.eqb_eq in F. auto.
Qed.



Lemma advance_walk_cases (p : PlayerSprite) :
  (advance_walk p = p /\ Qabs (x_odometer p) <= DISTANCE_TO_CHANGE_TEXTURE) \/
  (DISTANCE_TO_CHANGE_TEXTURE < Qabs (x_odometer p) /\
   x_odometer (advance_walk p) = 0 /\
   current_texture (advance_walk p)
   = (if (7 <? current_texture p + 1)%Z then 0 else current_texture p + 1)%Z /\
   texture (advance_walk p)
   = walk_textures (current_texture (advance_walk p))
                   (character_face_direction p)).
Proof.
  unfold advance_walk.
  destruct (Qltb DISTANCE_TO_CHANGE_TEXTURE (Qabs (x_odometer p))) eqn:E.
  - right. apply Qltb_lt in E. split; [exact E|].
    simpl. destruct (7 <? current_texture p + 1)%Z; simpl; auto.
  - left. apply Qltb_ge in E. auto.
Qed.

(** C4, as the code has it.  For a sprite whose facing is 0 or 1 (so that
    its texture lookups are within their pairs): the frame index stays in
    [0, 7] and an update either leaves it alone or moves it one step round
    the cycle (7 to 0).  The odometer takes the signed [dx], by a float
    addition, on every update; the frame advances only on an update that is
    not a jump, fall or idle one and leaves the magnitude of that signed sum
    above 10, and the odometer is 0 after an advance and the sum
    otherwise. *)
Theorem walk_cycle_step (h : Host) (e : list Command) (dx dy : Q)
    (p : PlayerSprite) :
  (0 <= current_texture p <= 7)%Z ->
  valid_face (character_face_direction p) = true ->
  let p' := pymunk_moved h e dx dy p in
  (0 <= current_texture p' <= 7)%Z /\
  ((current_texture p' = current_texture p /\
    x_odometer p' = float_add h (x_odometer p) dx)
   \/
   (current_texture p' = ((current_texture p + 1) mod 8)%Z /\
    x_odometer p' = 0 /\
    DISTANCE_TO_CHANGE_TEXTURE < Qabs (float_add h (x_odometer p) dx) /\
    DEAD_ZONE < Qabs dx /\
    texture p' = walk_textures (current_texture p')
                               (character_face_direction p'))).
Proof.
  intros R _ p'. subst p'.
  destruct (update_facing_fields dx p) as (_ & _ & C & O).
  pose proof (pymunk_moved_face h e dx dy p) as F.
  unfold pymunk_moved in *.
  remember (set_odometer (float_add h (x_odometer (update_facing dx p)) dx)
                         (update_facing dx p)) as q eqn:Hq.
  assert (Cq : current_texture q = current_texture p)
    by (rewrite Hq; exact C).
  assert (Oq : x_odometer q = float_add h (x_odometer p) dx)
    by (rewrite Hq; simpl; rewrite O; reflexivity).
  cbv zeta in *.
  assert (G : forall r : PlayerSprite,
            r = (if Qle_bool (Qabs dx) DEAD_ZONE
                 then set_texture
                        (idle_texture_pair (character_face_direction q)) q
                 else advance_walk q) ->
            (0 <= current_texture r <= 7)%Z /\
            ((current_texture r = current_texture p /\
              x_odometer r = float_add h (x_odometer p) dx) \/
             (current_texture r = ((current_texture p + 1) mod 8)%Z /\
              x_odometer r = 0 /\
              DISTANCE_TO_CHANGE_TEXTURE < Qabs (float_add h (x_odometer p) dx) /\
              DEAD_ZONE < Qabs dx /\
              texture r = walk_textures (current_texture r)
                                        (character_face_direction r)))).
  2:{ destruct (negb (is_on_ground h e));
        [destruct (Qltb DEAD_ZONE dy); [|destruct (Qltb dy (- DEAD_ZONE))]|];
        try (apply G; reflexivity);
        simpl; rewrite Cq, Oq; (split; [lia | left; auto]). }
  intros r Er. subst r.
  destruct (Qle_bool (Qabs dx) DEAD_ZONE) eqn:I;
    [simpl; rewrite Cq, Oq; split; [lia | left; auto]|].
  assert (W : DEAD_ZONE < Qabs dx).
  { apply Qnot_le_lt. intros L. apply Qle_bool_iff in L. congruence. }
  destruct (advance_walk_cases q) as [(E & _) | (D & Z0 & T & X)].
  - rewrite E, Cq, Oq. split; [lia | left; auto].
  - rewrite Oq in D. rewrite T, Cq in *.
    assert (M : (if (7 <? current_texture p + 1)%Z then 0
                 else current_texture p + 1)%Z
                = ((current_texture p + 1) mod 8)%Z).
    { destruct (7 <? current_texture p + 1)%Z eqn:B.
      - apply Z.ltb_lt in B. replace (current_texture p) with 7%Z by lia.
        reflexivity.
      - apply Z.ltb_ge in B. rewrite Z.mod_small by lia. reflexivity. }
    rewrite M in *.
    split; [pose proof (Z.mod_pos_bound (current_texture p + 1) 8); lia|].
    right. repeat split; auto.
    rewrite X, advance_walk_face. reflexivity.
Qed.

Lemma walk_cycle_step_witness :
  (0 <= current_texture PlayerSprite_init <= 7)%Z /\
  valid_face (character_face_direction PlayerSprite_init) = true /\
  current_texture (pymunk_moved demo [] 11 0 PlayerSprite_init) = 1%Z.
Proof.
  split; [vm_compute; split; discriminate|]. split; [reflexivity|].
  destruct (walk_cycle_step demo [] 11 0 PlayerSprite_init)
    as [_ [[_ O] | [C _]]].
  - vm_compute; split; discriminate.
  - reflexivity.
  - vm_compute in O. discriminate O.
  - exact C.
Defined.

(** The sum is a float sum: after a step of 1e-17 a step of 10 leaves the
    odometer at 10.0, not above it, and the frame where it was. *)
Lemma odometer_adds_in_floats :
  x_odometer
    (moved_many demo [([], 1 # 100000000000000000, 0); ([], 10, 0)]
                PlayerSprite_init) == 10 /\
  current_texture
    (moved_many demo [([], 1 # 100000000000000000, 0); ([], 10, 0)]
                PlayerSprite_init) = 0%Z.
Proof. vm_compute. split; reflexivity. Qed.


(** C4 as the spec words it fails: the odometer does not add up [|dx|].  A
    walking update 6 to the left leaves it at -6, not 6; and 6 to the right
    followed by 6 to the left, 12 in all, leaves it at 0 with the frame where
    it was. *)
Lemma odometer_is_signed :
  ~ x_odometer (pymunk_moved demo [] (-6) 0 PlayerSprite_init)
    == x_odometer PlayerSprite_init + Qabs (-6) /\
  x_odometer (pymunk_moved demo [] (-6) 0 PlayerSprite_init) == -6 /\
  DISTANCE_TO_CHANGE_TEXTURE < Qabs 6 + Qabs (-6) /\
  current_texture
    (moved_many demo [([], 6, 0); ([], -6, 0)] PlayerSprite_init)
    = current_texture PlayerSprite_init /\
  x_odometer
    (moved_many demo [([], 6, 0); ([], -6, 0)] PlayerSprite_init) == 0.
Proof.
  vm_compute. repeat split; try discriminate; try reflexivity.
Qed.


(** ** The log *)

Lemma count_app (f : Command -> bool) (l l' : list Command) :
  count f (l ++ l') = (count f l + count f l')%nat.
Proof. unfold count. rewrite filter_app, length_app. reflexivity. Qed.

Lemma calls_nil (w : GameWindow) : calls [] w = w.
Proof. destruct w. unfold calls. simpl. rewrite app_nil_r. reflexivity. Qed.

Lemma call_calls (c : Command) (cs : list Command) (w : GameWindow) :
  call c (calls cs w) = calls (cs ++ [c]) w.
Proof. unfold call, calls. simpl. rewrite app_assoc. reflexivity. Qed.

Lemma call_is_calls (c : Command) (w : GameWindow) : call c w = calls [c] w.
Proof. reflexivity. Qed.

Lemma calls_calls (cs cs' : list Command) (w : GameWindow) :
  calls cs' (calls cs w) = calls (cs ++ cs') w.
Proof. unfold calls. simpl. rewrite app_assoc. reflexivity. Qed.

(** ** The input translator *)

Lemma update_player_forces_calls (h : Host) (w : GameWindow) :
  update_player_forces h w
  = calls (input_table (left_pressed w) (right_pressed w)
                       (is_on_ground h (host w))) w.
Proof.
  unfold update_player_forces, input_table.
  destruct (left_pressed w), (right_pressed w), (is_on_ground h (host w));
    simpl; rewrite ?call_is_calls, ?calls_calls; reflexivity.
Qed.

(** C3.  The input translation of a tick is a function of the two held-key
    flags and of ground contact, and is what the table says: left only, a
    leftward force (8000 on the ground, 900 in the air) and friction 0; right
    only, the same force rightward and friction 0; both or neither, no force
    and friction 1.0.  Nothing else of the window changes. *)
Theorem input_translation_table (h : Host) (w : GameWindow) :
  update_player_forces h w
  = calls (input_table (left_pressed w) (right_pressed w)
                       (is_on_ground h (host w))) w
  /\ input_table true false true = [ApplyForce (-8000, 0); SetFriction 0]
  /\ input_table true false false = [ApplyForce (-900, 0); SetFriction 0]
  /\ input_table false true true = [ApplyForce (8000, 0); SetFriction 0]
  /\ input_table false true false = [ApplyForce (900, 0); SetFriction 0]
  /\ (forall g, input_table true true g = [SetFriction 1.0])
  /\ (forall g, input_table false false g = [SetFriction 1.0]).
Proof.
  split; [apply update_player_forces_calls | repeat split; reflexivity].
Qed.

(** ** What each part of a tick touches *)

Lemma setup_some (h : Host) (lvl : Z) (w : GameWindow) (m : TileMap) :
  read_tmx h lvl = Some m ->
  exists w',
    setup h lvl w = Some w' /\
    player_sprite w' = set_position spawn_x spawn_y PlayerSprite_init /\
    wall_list w' = Platforms m /\
    item_list w' = Dynamic_Items m /\
    gem_list w' = Valuables m /\
    left_pressed w' = left_pressed w /\
    right_pressed w' = right_pressed w /\
    view_bottom w' = view_bottom w /\
    view_left w' = view_left w /\
    level w' = level w /\
    end_of_map w' = (map_width m * 30 + 800)%Z /\
    host w' = host w ++ setup_commands m.
Proof.
  intros R. unfold setup. rewrite R. eexists. split; [reflexivity|].
  simpl. repeat split; reflexivity.
Qed.

Lemma setup_none (h : Host) (lvl : Z) (w : GameWindow) :
  read_tmx h lvl = None -> setup h lvl w = None.
Proof. intros R. unfold setup. rewrite R. reflexivity. Qed.

Lemma setup_inv (h : Host) (lvl : Z) (w w' : GameWindow) :
  setup h lvl w = Some w' -> exists m, read_tmx h lvl = Some m.
Proof.
  unfold setup. destruct (read_tmx h lvl) as [m|]; [eauto | discriminate].
Qed.

Lemma check_level_end_stay (h : Host) (w : GameWindow) :
  Qle_bool (inject_Z (end_of_map w)) (center_x (player_sprite w)) = false ->
  check_level_end h w = Some w /\ level_commands h w = [].
Proof.
  intros B. unfold check_level_end, level_commands. rewrite B. auto.
Qed.

Lemma check_level_end_next (h : Host) (w : GameWindow) (m : TileMap) :
  Qle_bool (inject_Z (end_of_map w)) (center_x (player_sprite w)) = true ->
  read_tmx h (level w + 1) = Some m ->
  level_commands h w = setup_commands m /\
  check_level_end h w = setup h (level w + 1) (set_level (level w + 1) w).
Proof.
  intros B R. unfold check_level_end, level_commands. rewrite B, R. auto.
Qed.

(** The level check leaves the camera and the held keys alone, adds its
    commands to the log, and moves the level by nought or one. *)
Lemma check_level_end_frame (h : Host) (w w' : GameWindow) :
  check_level_end h w = Some w' ->
  left_pressed w' = left_pressed w /\
  right_pressed w' = right_pressed w /\
  view_bottom w' = view_bottom w /\
  view_left w' = view_left w /\
  host w' = host w ++ level_commands h w /\
  ((Qle_bool (inject_Z (end_of_map w)) (center_x (player_sprite w)) = false
    /\ w' = w) \/
   (Qle_bool (inject_Z (end_of_map w)) (center_x (player_sprite w)) = true
    /\ level w' = (level w + 1)%Z)).
Proof.
  intros E.
  destruct (Qle_bool (inject_Z (end_of_map w)) (center_x (player_sprite w)))
    eqn:B.
  - unfold check_level_end in E. rewrite B in E. simpl in E.
    destruct (setup_inv _ _ _ _ E) as [m R].
    destruct (setup_some h (level w + 1) (set_level (level w + 1) w) m R)
      as (w2 & S & _ & _ & _ & _ & L & Rp & Vb & Vl & Lv & _ & Ho).
    rewrite S in E. inversion E; subst w2.
    destruct (check_level_end_next h w m B R) as [C _].
    rewrite C. simpl in *. repeat split; auto.
  - destruct (check_level_end_stay h w B) as [S C].
    rewrite S in E. inversion E; subst w'. rewrite C, app_nil_r.
    repeat split; auto.
Qed.

Lemma manage_scrolling_frame (h : Host) (w : GameWindow) :
  player_sprite (manage_scrolling h w) = player_sprite w /\
  wall_list (manage_scrolling h w) = wall_list w /\
  item_list (manage_scrolling h w) = item_list w /\
  gem_list (manage_scrolling h w) = gem_list w /\
  left_pressed (manage_scrolling h w) = left_pressed w /\
  right_pressed (manage_scrolling h w) = right_pressed w /\
  level (manage_scrolling h w) = level w /\
  end_of_map (manage_scrolling h w) = end_of_map w /\
  host (manage_scrolling h w) = host w ++ scroll_commands h w.
Proof.
  unfold manage_scrolling, scroll_commands.
  destruct (scroll_offsets h w) as [[vl vb] [|]]; simpl;
    rewrite ?app_nil_r; repeat split; reflexivity.
Qed.

(** The pickup loop, for any list of hits. *)
Lemma pickup_loop (hits : list Sprite) (w : GameWindow) :
  let w' := fold_left
              (fun w gem => call PlaySound (remove_from_sprite_lists gem w))
              hits w in
  player_sprite w' = player_sprite w /\
  left_pressed w' = left_pressed w /\
  right_pressed w' = right_pressed w /\
  view_bottom w' = view_bottom w /\
  view_left w' = view_left w /\
  level w' = level w /\
  end_of_map w' = end_of_map w /\
  wall_list w' = fold_left (fun l g => remove_first g l) hits (wall_list w) /\
  item_list w' = fold_left (fun l g => remove_first g l) hits (item_list w) /\
  gem_list w' = fold_left (fun l g => remove_first g l) hits (gem_list w) /\
  host w' = host w ++ gem_commands hits.
Proof.
  revert w. induction hits as [|g hits IH]; intros w; simpl.
  - rewrite app_nil_r. repeat split; reflexivity.
  - specialize (IH (call PlaySound (remove_from_sprite_lists g w))).
    simpl in IH.
    destruct IH as (P & L & R & Vb & Vl & Lv & E & Wl & Il & Gl & Ho).
    rewrite P, L, R, Vb, Vl, Lv, E, Wl, Il, Gl, Ho.
    rewrite <- !app_assoc. simpl. repeat split; reflexivity.
Qed.

Lemma physics_step_frame (h : Host) (w : GameWindow) :
  wall_list (physics_step h w) = wall_list w /\
  item_list (physics_step h w) = item_list w /\
  gem_list (physics_step h w) = gem_list w /\
  left_pressed (physics_step h w) = left_pressed w /\
  right_pressed (physics_step h w) = right_pressed w /\
  view_bottom (physics_step h w) = view_bottom w /\
  view_left (physics_step h w) = view_left w /\
  level (physics_step h w) = level w /\
  end_of_map (physics_step h w) = end_of_map w /\
  host (physics_step h w) = host w ++ [Step] /\
  player_sprite (physics_step h w)
  = pymunk_moved h (host w ++ [Step])
      (fst (body_position h (host w ++ [Step])) - center_x (player_sprite w))
      (snd (body_position h (host w ++ [Step])) - center_y (player_sprite w))
      (set_position (fst (body_position h (host w ++ [Step])))
                    (snd (body_position h (host w ++ [Step])))
                    (player_sprite w)).
Proof.
  unfold physics_step, advance_world, animate. simpl.
  destruct (body_position h (host w ++ [Step])) as [x y]. simpl.
  repeat split; reflexivity.
Qed.

(** ** The tick as a whole *)

Lemma on_update_some (h : Host) (dt : Q) (w w2 : GameWindow) :
  check_level_end h (update_player_forces h w) = Some w2 ->
  on_update h dt w
  = Some (physics_step h (collect_gems h (manage_scrolling h w2))).
Proof. intros E. unfold on_update. rewrite E. reflexivity. Qed.

Lemma on_update_inv (h : Host) (dt : Q) (w w' : GameWindow) :
  on_update h dt w = Some w' ->
  exists w2,
    check_level_end h (update_player_forces h w) = Some w2 /\
    w' = physics_step h (collect_gems h (manage_scrolling h w2)).
Proof.
  unfold on_update.
  destruct (check_level_end h (update_player_forces h w)) as [w2|];
    [|discriminate].
  intros E. inversion E. eauto.
Qed.

Lemma collect_gems_frame (h : Host) (w : GameWindow) :
  player_sprite (collect_gems h w) = player_sprite w /\
  left_pressed (collect_gems h w) = left_pressed w /\
  right_pressed (collect_gems h w) = right_pressed w /\
  view_bottom (collect_gems h w) = view_bottom w /\
  view_left (collect_gems h w) = view_left w /\
  level (collect_gems h w) = level w /\
  end_of_map (collect_gems h w) = end_of_map w /\
  host (collect_gems h w)
  = host w ++ gem_commands (check_for_collision_with_list h w).
Proof.
  unfold collect_gems.
  destruct (pickup_loop (check_for_collision_with_list h w) w)
    as (P & L & R & Vb & Vl & Lv & E & _ & _ & _ & Ho).
  repeat split; assumption.
Qed.

(** The log of a tick: the commands before the step, then the step. *)
Lemma tick_log (h : Host) (w w2 : GameWindow) :
  check_level_end h (update_player_forces h w) = Some w2 ->
  host (physics_step h (collect_gems h (manage_scrolling h w2)))
  = host w ++ before_step h w w2 ++ [Step].
Proof.
  intros E.
  destruct (physics_step_frame h (collect_gems h (manage_scrolling h w2)))
    as (_ & _ & _ & _ & _ & _ & _ & _ & _ & Hs & _).
  destruct (collect_gems_frame h (manage_scrolling h w2))
    as (_ & _ & _ & _ & _ & _ & _ & Hg).
  destruct (manage_scrolling_frame h w2)
    as (_ & _ & _ & _ & _ & _ & _ & _ & Hc).
  destruct (check_level_end_frame h _ _ E) as (_ & _ & _ & _ & Hl & _).
  rewrite Hs, Hg, Hc, Hl, update_player_forces_calls.
  unfold before_step. simpl. rewrite <- !app_assoc.
  rewrite update_player_forces_calls. reflexivity.
Qed.

Lemma count_gem_commands (hits : list Sprite) (g : Sprite) :
  count is_impulse (gem_commands hits) = 0%nat /\
  count is_step (gem_commands hits) = 0%nat /\
  count is_sound (gem_commands hits) = List.length hits /\
  count (is_removal_of g) (gem_commands hits)
  = List.length (filter (Nat.eqb g) hits).
Proof.
  unfold count. induction hits as [|x hits (I & S & P & R)]; simpl.
  - auto.
  - destruct (Nat.eqb g x); simpl; rewrite ?I, ?S, ?P, ?R; auto.
Qed.

(** Outside the pickup loop and the step, a tick sends no impulse, no step,
    no removal and no sound. *)
Lemma count_outside_pickup (h : Host) (w w2 : GameWindow) (g : Sprite)
    (l r b : bool) (f : Command -> bool) :
  f = is_impulse \/ f = is_step \/ f = is_sound \/ f = is_removal_of g ->
  count f (input_table l r b) = 0%nat /\
  count f (level_commands h w) = 0%nat /\
  count f (scroll_commands h w2) = 0%nat.
Proof.
  intros F. unfold level_commands, scroll_commands.
  destruct (scroll_offsets h w2) as [[vl vb] c].
  destruct (Qle_bool _ _), (read_tmx h (level w + 1)), l, r, b, c;
    destruct F as [F | [F | [F | F]]]; subst f; auto.
Qed.

Lemma count_before_step (h : Host) (w w2 : GameWindow) :
  count is_impulse (before_step h w w2) = 0%nat /\
  count is_step (before_step h w w2) = 0%nat.
Proof.
  unfold before_step. rewrite !count_app.
  destruct (count_gem_commands
              (check_for_collision_with_list h (manage_scrolling h w2)) 0%nat)
    as (I & S & _).
  rewrite I, S.
  split.
  - destruct (count_outside_pickup h (update_player_forces h w) w2 0%nat
                (left_pressed w) (right_pressed w) (is_on_ground h (host w))
                is_impulse) as (A & B & C); [auto|].
    rewrite A, B, C. reflexivity.
  - destruct (count_outside_pickup h (update_player_forces h w) w2 0%nat
                (left_pressed w) (right_pressed w) (is_on_ground h (host w))
                is_step) as (A & B & C); [auto|].
    rewrite A, B, C. reflexivity.
Qed.

(** C1, as the code has it.  A tick runs the input translation, the level
    check (with its reload), the camera update and the pickup loop, in this
    order, and the physics step last: [Step] is the final command of the tick
    and occurs nowhere before; the checks see the sprite where the previous
    step left it (or at the spawn after a reload), and the animation update
    runs inside that final step. *)
Theorem physics_step_is_last (h : Host) (dt : Q) (w w2 : GameWindow) :
  check_level_end h (update_player_forces h w) = Some w2 ->
  exists w',
    on_update h dt w = Some w' /\
    w' = physics_step h (collect_gems h (manage_scrolling h w2)) /\
    host w' = host w ++ before_step h w w2 ++ [Step] /\
    count is_step (before_step h w w2) = 0%nat /\
    player_sprite (collect_gems h (manage_scrolling h w2)) = player_sprite w2 /\
    player_sprite w'
    = pymunk_moved h (host w')
        (fst (body_position h (host w')) - center_x (player_sprite w2))
        (snd (body_position h (host w')) - center_y (player_sprite w2))
        (set_position (fst (body_position h (host w')))
                      (snd (body_position h (host w')))
                      (player_sprite w2)).
Proof.
  intros E. eexists. split; [apply on_update_some; exact E|].
  split; [reflexivity|].
  pose proof (tick_log h w w2 E) as L.
  destruct (count_before_step h w w2) as [_ S].
  destruct (collect_gems_frame h (manage_scrolling h w2)) as (P & _).
  destruct (manage_scrolling_frame h w2) as (P2 & _).
  destruct (physics_step_frame h (collect_gems h (manage_scrolling h w2)))
    as (_ & _ & _ & _ & _ & _ & _ & _ & _ & Hs & Pl).
  repeat split; auto.
  - congruence.
  - rewrite Pl, Hs, P, P2. reflexivity.
Qed.

Lemma physics_step_is_last_witness :
  check_level_end demo (update_player_forces demo demo_window)
    = Some (update_player_forces demo demo_window) /\
  exists w',
    on_update demo 0 demo_window = Some w' /\
    host w' = host demo_window
              ++ before_step demo demo_window
                   (update_player_forces demo demo_window) ++ [Step].
Proof.
  assert (E : check_level_end demo (update_player_forces demo demo_window)
              = Some (update_player_forces demo demo_window))
    by (vm_compute; reflexivity).
  split; [exact E|].
  destruct (physics_step_is_last demo 0 demo_window _ E)
    as (w' & U & _ & L & _).
  exists w'. split; assumption.
Defined.

(** C1 as the spec words it fails.  On the first tick of the demo level the
    viewport call, the pickup of gem 7 and its sound all come before the
    step, and the tick differs from the one run in the spec's order. *)
Lemma step_does_not_precede_checks :
  (exists w',
     on_update demo 0 demo_window = Some w' /\
     host w' = host demo_window
               ++ [SetFriction 1.0; SetViewport (-769) 1151 0 1080;
                   RemoveFromSpriteLists 7%nat; PlaySound; Step]) /\
  on_update demo 0 demo_window <> on_update_spec_order demo 0 demo_window.
Proof.
  split.
  - eexists. split; [reflexivity|]. vm_compute. reflexivity.
  - intros E. vm_compute in E. congruence.
Qed.

(** The level, the camera and the held keys across the parts after the level
    check. *)
Lemma after_level_check (h : Host) (w2 : GameWindow) :
  level (physics_step h (collect_gems h (manage_scrolling h w2))) = level w2 /\
  left_pressed (physics_step h (collect_gems h (manage_scrolling h w2)))
  = left_pressed w2 /\
  right_pressed (physics_step h (collect_gems h (manage_scrolling h w2)))
  = right_pressed w2 /\
  view_left (physics_step h (collect_gems h (manage_scrolling h w2)))
  = view_left (manage_scrolling h w2) /\
  view_bottom (physics_step h (collect_gems h (manage_scrolling h w2)))
  = view_bottom (manage_scrolling h w2).
Proof.
  destruct (physics_step_frame h (collect_gems h (manage_scrolling h w2)))
    as (_ & _ & _ & L1 & R1 & Vb1 & Vl1 & Lv1 & _).
  destruct (collect_gems_frame h (manage_scrolling h w2))
    as (_ & L2 & R2 & Vb2 & Vl2 & Lv2 & _).
  destruct (manage_scrolling_frame h w2)
    as (_ & _ & _ & _ & L3 & R3 & Lv3 & _).
  repeat split; congruence.
Qed.

(** ** Level end *)

(** When the next map is missing the reload raises, and so does the tick. *)
Lemma level_end_without_map (h : Host) (dt : Q) (w : GameWindow) :
  inject_Z (end_of_map w) <= center_x (player_sprite w) ->
  read_tmx h (level w + 1) = None ->
  on_update h dt w = None.
Proof.
  intros G R. apply Qle_bool_iff in G.
  unfold on_update, check_level_end.
  rewrite update_player_forces_calls. simpl. rewrite G.
  unfold setup. simpl. rewrite R. reflexivity.
Qed.

(** C2, as the code has it.  In a tick that starts with
    [center_x >= end_of_map] and whose next map can be read, the level
    counter goes up by exactly one and [setup] runs for the new level: the
    wall, item and gem lists are those of the new map, a new engine is
    created and filled with them, [end_of_map] is the new map's width times
    30 plus 800, and the player stands at the spawn of grid cell (2, 2).  A
    tick that starts with [center_x < end_of_map] leaves the level counter
    as it is.  A tick that starts with [center_x >= end_of_map] when the
    next map cannot be read raises. *)
Theorem level_end_advances_level (h : Host) (dt : Q) (w : GameWindow) :
  (forall m,
     inject_Z (end_of_map w) <= center_x (player_sprite w) ->
     read_tmx h (level w + 1) = Some m ->
     exists w2 w',
       check_level_end h (update_player_forces h w) = Some w2 /\
       setup h (level w + 1)
             (set_level (level w + 1) (update_player_forces h w)) = Some w2 /\
       level w2 = (level w + 1)%Z /\
       wall_list w2 = Platforms m /\
       item_list w2 = Dynamic_Items m /\
       gem_list w2 = Valuables m /\
       end_of_map w2 = (map_width m * 30 + 800)%Z /\
       host w2 = host (update_player_forces h w) ++ setup_commands m /\
       player_sprite w2 = set_position spawn_x spawn_y PlayerSprite_init /\
       center_x (player_sprite w2)
       = inject_Z (SPRITE_SIZE * 2) + inject_Z SPRITE_SIZE / 2 /\
       center_y (player_sprite w2)
       = inject_Z (SPRITE_SIZE * 2) + inject_Z SPRITE_SIZE / 2 /\
       on_update h dt w = Some w' /\
       w' = physics_step h (collect_gems h (manage_scrolling h w2)) /\
       level w' = (level w + 1)%Z)
  /\
  (center_x (player_sprite w) < inject_Z (end_of_map w) ->
   exists w', on_update h dt w = Some w' /\ level w' = level w)
  /\
  (inject_Z (end_of_map w) <= center_x (player_sprite w) ->
   read_tmx h (level w + 1) = None ->
   on_update h dt w = None).
Proof.
  assert (F : player_sprite (update_player_forces h w) = player_sprite w /\
              end_of_map (update_player_forces h w) = end_of_map w /\
              level (update_player_forces h w) = level w)
    by (rewrite update_player_forces_calls; simpl; auto).
  destruct F as (Fp & Fe & Fl).
  split; [|split; [|exact (level_end_without_map h dt w)]].
  - intros m G R.
    apply Qle_bool_iff in G. rewrite <- Fp, <- Fe in G. rewrite <- Fl in R.
    destruct (check_level_end_next h _ m G R) as [_ C].
    destruct (setup_some h (level (update_player_forces h w) + 1)
                (set_level (level (update_player_forces h w) + 1)
                           (update_player_forces h w)) m R)
      as (w2 & S & P & Wl & Il & Gl & _ & _ & _ & _ & Lv & Eo & Ho).
    rewrite S in C. rewrite Fl in *. simpl in Lv, Ho.
    exists w2, (physics_step h (collect_gems h (manage_scrolling h w2))).
    destruct (after_level_check h w2) as (Lv' & _).
    repeat split; auto.
    + rewrite P. reflexivity.
    + rewrite P. reflexivity.
    + apply on_update_some. exact C.
    + congruence.
  - intros L.
    assert (B : Qle_bool (inject_Z (end_of_map (update_player_forces h w)))
                         (center_x (player_sprite (update_player_forces h w)))
                = false).
    { rewrite Fp, Fe. destruct (Qle_bool _ _) eqn:B; [|reflexivity].
      apply Qle_bool_iff in B. exfalso. exact (Qlt_not_le _ _ L B). }
    destruct (check_level_end_stay h _ B) as [C _].
    exists (physics_step h (collect_gems h
              (manage_scrolling h (update_player_forces h w)))).
    split; [apply on_update_some; exact C|].
    destruct (after_level_check h (update_player_forces h w)) as (Lv' & _).
    congruence.
Qed.

Lemma level_end_advances_level_witness :
  (inject_Z (end_of_map demo_window_at_end)
     <= center_x (player_sprite demo_window_at_end) /\
   read_tmx demo (level demo_window_at_end + 1) = Some demo_map_2 /\
   exists w',
     on_update demo 0 demo_window_at_end = Some w' /\ level w' = 2%Z) /\
  (center_x (player_sprite demo_window) < inject_Z (end_of_map demo_window) /\
   exists w', on_update demo 0 demo_window = Some w' /\ level w' = 1%Z) /\
  (inject_Z (end_of_map (demo_sprint_window 3))
     <= center_x (player_sprite (demo_sprint_window 3)) /\
   read_tmx demo_sprint (level (demo_sprint_window 3) + 1) = None /\
   on_update demo_sprint 0 (demo_sprint_window 3) = None).
Proof.
  split; [|split].
  - assert (G : inject_Z (end_of_map demo_window_at_end)
                <= center_x (player_sprite demo_window_at_end))
      by (vm_compute; discriminate).
    assert (R : read_tmx demo (level demo_window_at_end + 1) = Some demo_map_2)
      by reflexivity.
    split; [exact G|]. split; [exact R|].
    destruct (level_end_advances_level demo 0 demo_window_at_end) as [A _].
    destruct (A demo_map_2 G R) as (w2 & w' & T).
    exists w'. split; apply T.
  - assert (L : center_x (player_sprite demo_window)
                < inject_Z (end_of_map demo_window))
      by (vm_compute; reflexivity).
    split; [exact L|].
    destruct (level_end_advances_level demo 0 demo_window) as (_ & B & _).
    exact (B L).
  - assert (G : inject_Z (end_of_map (demo_sprint_window 3))
                <= center_x (player_sprite (demo_sprint_window 3)))
      by (vm_compute; discriminate).
    assert (R : read_tmx demo_sprint (level (demo_sprint_window 3) + 1)
                = None) by (vm_compute; reflexivity).
    split; [exact G|]. split; [exact R|].
    destruct (level_end_advances_level demo_sprint 0 (demo_sprint_window 3))
      as (_ & _ & C).
    exact (C G R).
Defined.

(** C2 as the spec words it fails.  The sprint reaches the end of level 2,
    the last map there is, after three ticks from [main]; in the next tick
    [center_x >= end_of_map] holds and the tick raises on the missing map of
    level 3: no window comes back with its lists replaced. *)
Lemma level_end_on_the_last_map_raises :
  main demo_sprint = Some demo_window /\
  run demo_sprint [Update 0; Update 0; Update 0] demo_window
  = Some (demo_sprint_window 3) /\
  level (demo_sprint_window 3) = 2%Z /\
  gem_list (demo_sprint_window 3) = [17; 18]%nat /\
  inject_Z (end_of_map (demo_sprint_window 3))
    <= center_x (player_sprite (demo_sprint_window 3)) /\
  on_update demo_sprint 0 (demo_sprint_window 3) = None.
Proof.
  vm_compute. repeat split; try reflexivity; discriminate.
Qed.

(** ** The jump *)

Lemma jump_key_is_no_arrow (k : Z) :
  is_jump_key k = true ->
  ((k =? key.LEFT) || (k =? key.A))%Z = false /\
  ((k =? key.RIGHT) || (k =? key.D))%Z = false.
Proof.
  unfold is_jump_key. rewrite !orb_true_iff, !Z.eqb_eq.
  intros [[E | E] | E]; subst k; split; reflexivity.
Qed.

Lemma on_key_press_impulses (h : Host) (k m : Z) (w : GameWindow) :
  count is_impulse (host (on_key_press h k m w))
  = (count is_impulse (host w)
     + (if is_jump_key k && is_on_ground h (host w) then 1 else 0))%nat.
Proof.
  unfold on_key_press.
  destruct ((k =? key.LEFT) || (k =? key.A))%Z eqn:A.
  - destruct (is_jump_key k) eqn:J.
    + apply jump_key_is_no_arrow in J. destruct J; congruence.
    + simpl. lia.
  - destruct ((k =? key.RIGHT) || (k =? key.D))%Z eqn:B.
    + destruct (is_jump_key k) eqn:J.
      * apply jump_key_is_no_arrow in J. destruct J; congruence.
      * simpl. lia.
    + fold (is_jump_key k).
      destruct (is_jump_key k), (is_on_ground h (host w));
        cbn [call host andb]; rewrite ?count_app; unfold count; simpl; lia.
Qed.

Lemma dispatch_impulses (h : Host) (ev : Event) (w w' : GameWindow) :
  is_jump_press ev = false ->
  dispatch h ev w = Some w' ->
  count is_impulse (host w') = count is_impulse (host w).
Proof.
  intros J D. destruct ev as [k m | k m | dt]; simpl in *.
  - inversion D; subst w'. rewrite on_key_press_impulses, J.
    cbn [andb]. lia.
  - inversion D; subst w'. unfold on_key_release.
    destruct (_ || _)%bool; [|destruct (_ || _)%bool]; reflexivity.
  - destruct (on_update_inv _ _ _ _ D) as (w2 & E & W). subst w'.
    rewrite (tick_log h w w2 E), !count_app.
    destruct (count_before_step h w w2) as [I _]. rewrite I.
    change (count is_impulse [Step]) with 0%nat. lia.
Qed.

(** C8.  A press of a jump key (up, space, W) while the player is on the
    ground applies exactly one impulse, (0, 1400), and changes nothing else;
    a press in the air changes nothing.  No other callback applies an
    impulse: over any run of events without a jump press, whatever keys are
    held, the number of impulses sent to the engine stays the same. *)
Theorem jump_only_on_press_edge (h : Host) :
  (forall k m w,
     is_jump_key k = true -> is_on_ground h (host w) = true ->
     on_key_press h k m w = call (ApplyImpulse (0, 1400)) w /\
     count is_impulse (host (on_key_press h k m w))
     = S (count is_impulse (host w)))
  /\
  (forall k m w,
     is_jump_key k = true -> is_on_ground h (host w) = false ->
     on_key_press h k m w = w)
  /\
  (forall evs w w',
     Forall (fun ev => is_jump_press ev = false) evs ->
     run h evs w = Some w' ->
     count is_impulse (host w') = count is_impulse (host w)).
Proof.
  split; [|split].
  - intros k m w J G. split.
    + destruct (jump_key_is_no_arrow k J) as [A B].
      unfold on_key_press. rewrite A, B. fold (is_jump_key k).
      rewrite J, G. reflexivity.
    + rewrite on_key_press_impulses, J, G. simpl. lia.
  - intros k m w J G.
    destruct (jump_key_is_no_arrow k J) as [A B].
    unfold on_key_press. rewrite A, B. fold (is_jump_key k).
    rewrite J, G. reflexivity.
  - induction evs as [|ev evs IH]; intros w w' F R; simpl in R.
    + inversion R. reflexivity.
    + inversion F as [|x xs J F']; subst.
      destruct (dispatch h ev w) as [w1|] eqn:D; [|discriminate].
      rewrite (IH w1 w' F' R). exact (dispatch_impulses h ev w w1 J D).
Qed.

Lemma jump_only_on_press_edge_witness :
  (is_jump_key key.SPACE = true /\
   is_on_ground demo (host demo_window) = true /\
   on_key_press demo key.SPACE 0 demo_window
   = call (ApplyImpulse (0, 1400)) demo_window) /\
  (is_on_ground demo_air (host demo_window) = false /\
   on_key_press demo_air key.UP 0 demo_window = demo_window) /\
  (exists w',
     run demo [Update 0; KeyRelease key.UP 0; Update 0]
         (on_key_press demo key.UP 0 demo_window) = Some w' /\
     count is_impulse (host w') = 1%nat).
Proof.
  destruct (jump_only_on_press_edge demo) as (A & _ & C).
  destruct (jump_only_on_press_edge demo_air) as (_ & B & _).
  split; [|split].
  - split; [reflexivity|]. split; [reflexivity|].
    apply (A key.SPACE 0%Z demo_window); reflexivity.
  - split; [reflexivity|].
    apply (B key.UP 0%Z demo_window); reflexivity.
  - destruct (run demo [Update 0; KeyRelease key.UP 0; Update 0]
                  (on_key_press demo key.UP 0 demo_window)) as [w'|] eqn:R;
      [|vm_compute in R; discriminate R].
    exists w'. split; [reflexivity|].
    assert (F : Forall (fun ev => is_jump_press ev = false)
                       [Update 0; KeyRelease key.UP 0; Update 0])
      by (repeat constructor).
    rewrite (C _ _ w' F R). vm_compute. reflexivity.
Defined.

(** ** What a reload keeps *)

(** C10, as the code has it.  [setup] gives no value to [view_left],
    [view_bottom], [left_pressed] or [right_pressed]: the window it returns,
    and so the window the level transition hands on, has them as they were,
    with the player back at the spawn.  Within a tick only the camera update
    writes the two offsets, and nothing writes the two flags; the key
    callbacks write only the flags; the constructor starts them at 0, 0,
    False, False.  So after the tick the held keys are as before, and the
    offsets are those the camera update of that same tick computes from the
    kept offsets and the window handed on (after a reload: the player at
    the spawn). *)
Theorem setup_keeps_camera_and_keys (h : Host) :
  (forall lvl w m,
     read_tmx h lvl = Some m ->
     exists w',
       setup h lvl w = Some w' /\
       view_left w' = view_left w /\ view_bottom w' = view_bottom w /\
       left_pressed w' = left_pressed w /\ right_pressed w' = right_pressed w /\
       center_x (player_sprite w') = spawn_x /\
       center_y (player_sprite w') = spawn_y)
  /\
  (forall w w',
     check_level_end h w = Some w' ->
     view_left w' = view_left w /\ view_bottom w' = view_bottom w /\
     left_pressed w' = left_pressed w /\ right_pressed w' = right_pressed w)
  /\
  (forall w,
     view_left (update_player_forces h w) = view_left w /\
     view_bottom (update_player_forces h w) = view_bottom w /\
     view_left (collect_gems h w) = view_left w /\
     view_bottom (collect_gems h w) = view_bottom w /\
     view_left (physics_step h w) = view_left w /\
     view_bottom (physics_step h w) = view_bottom w)
  /\
  (forall k m w,
     view_left (on_key_press h k m w) = view_left w /\
     view_bottom (on_key_press h k m w) = view_bottom w /\
     view_left (on_key_release k m w) = view_left w /\
     view_bottom (on_key_release k m w) = view_bottom w)
  /\
  (forall dt w w',
     on_update h dt w = Some w' ->
     left_pressed w' = left_pressed w /\ right_pressed w' = right_pressed w /\
     exists w2,
       check_level_end h (update_player_forces h w) = Some w2 /\
       view_left w2 = view_left w /\ view_bottom w2 = view_bottom w /\
       view_left w' = view_left (manage_scrolling h w2) /\
       view_bottom w' = view_bottom (manage_scrolling h w2))
  /\
  (view_left GameWindow_init = 0 /\ view_bottom GameWindow_init = 0 /\
   left_pressed GameWindow_init = false /\
   right_pressed GameWindow_init = false).
Proof.
  split; [|split; [|split; [|split; [|split]]]].
  - intros lvl w m R.
    destruct (setup_some h lvl w m R)
      as (w' & S & P & _ & _ & _ & L & Rp & Vb & Vl & _).
    exists w'. rewrite P. repeat split; auto.
  - intros w w' E.
    destruct (check_level_end_frame h w w' E) as (L & R & Vb & Vl & _).
    auto.
  - intros w.
    destruct (collect_gems_frame h w) as (_ & _ & _ & Vb & Vl & _).
    destruct (physics_step_frame h w) as (_ & _ & _ & _ & _ & Vb' & Vl' & _).
    rewrite update_player_forces_calls. simpl. repeat split; auto.
  - intros k m w. unfold on_key_press, on_key_release.
    case_ifs; simpl; auto.
  - intros dt w w' U.
    destruct (on_update_inv h dt w w' U) as (w2 & E & W). subst w'.
    destruct (after_level_check h w2) as (_ & L & R & Vl & Vb).
    destruct (check_level_end_frame h _ w2 E) as (L2 & R2 & Vb2 & Vl2 & _).
    rewrite update_player_forces_calls in L2, R2, Vb2, Vl2.
    simpl in L2, R2, Vb2, Vl2.
    split; [congruence|]. split; [congruence|].
    exists w2. repeat split; assumption.
  - repeat split; reflexivity.
Qed.

Lemma setup_keeps_camera_and_keys_witness :
  read_tmx demo 2 = Some demo_map_2 /\
  (exists w',
     setup demo 2 (set_view 7 (-769) (set_pressed true false demo_window))
       = Some w' /\
     view_left w' = -769 /\ view_bottom w' = 7 /\
     left_pressed w' = true /\ right_pressed w' = false) /\
  (exists w',
     on_update demo 0 (set_pressed true false demo_window_at_end) = Some w' /\
     level w' = 2%Z /\ left_pressed w' = true /\ right_pressed w' = false /\
     view_left w' = -769).
Proof.
  destruct (setup_keeps_camera_and_keys demo) as (A & B & _ & _ & E & _).
  split; [reflexivity|]. split.
  - destruct (A 2%Z (set_view 7 (-769) (set_pressed true false demo_window))
                demo_map_2 eq_refl) as (w' & S & T).
    exists w'. split; [exact S|]. simpl in T. repeat split; apply T.
  - destruct (on_update demo 0 (set_pressed true false demo_window_at_end))
      as [w'|] eqn:U; [|vm_compute in U; discriminate U].
    exists w'. split; [reflexivity|].
    destruct (E _ _ _ U) as (L & R & _). simpl in L, R.
    split; [|split; [exact L | split; [exact R|]]];
      vm_compute in U; inversion U; reflexivity.
Defined.

(** C10 as the spec words it fails.  Two ticks into the sprint the camera is
    at 2712; the third tick reloads, and its camera update, finding the
    player at the spawn, leaves the camera at -769. *)
Lemma camera_moves_in_the_reload_tick :
  main demo_sprint = Some demo_window /\
  run demo_sprint [Update 0; Update 0] demo_window
  = Some (demo_sprint_window 2) /\
  on_update demo_sprint 0 (demo_sprint_window 2)
  = Some (demo_sprint_window 3) /\
  level (demo_sprint_window 3) = (level (demo_sprint_window 2) + 1)%Z /\
  view_left (demo_sprint_window 2) = 2712 /\
  view_left (demo_sprint_window 3) = -769 /\
  ~ view_left (demo_sprint_window 3) == view_left (demo_sprint_window 2).
Proof.
  vm_compute. repeat split; try reflexivity; discriminate.
Qed.

(** ** The pickup loop *)

Lemma remove_first_skips (s : Sprite) (pre l : list Sprite) :
  ~ In s pre -> remove_first s (pre ++ s :: l) = pre ++ l.
Proof.
  induction pre as [|x pre IH]; intros N; simpl.
  - rewrite Nat.eqb_refl. reflexivity.
  - destruct (Nat.eqb s x) eqn:E.
    + apply Nat.eqb_eq in E. subst x. exfalso. apply N. left. reflexivity.
    + rewrite IH; [reflexivity|]. intros I. apply N. right. exact I.
Qed.

(** Removing every hit, one at a time, leaves the sprites that were not hit,
    in their order. *)
Lemma remove_hits (c : Sprite -> bool) (l pre : list Sprite) :
  Forall (fun s => c s = false) pre ->
  fold_left (fun acc g => remove_first g acc) (filter c l) (pre ++ l)
  = pre ++ filter (fun s => negb (c s)) l.
Proof.
  revert pre. induction l as [|x l IH]; intros pre F; simpl.
  - reflexivity.
  - destruct (c x) eqn:C; simpl.
    + rewrite remove_first_skips.
      * apply IH. exact F.
      * intros I. rewrite Forall_forall in F. specialize (F x I). congruence.
    + replace (pre ++ x :: l) with ((pre ++ [x]) ++ l)
        by (rewrite <- app_assoc; reflexivity).
      rewrite IH.
      * rewrite <- app_assoc. reflexivity.
      * apply Forall_app. split; [exact F | constructor; [exact C | constructor]].
Qed.

Lemma collect_gems_list (h : Host) (w : GameWindow) :
  gem_list (collect_gems h w)
  = filter (fun g => negb (check_for_collision h (host w) (player_sprite w) g))
           (gem_list w).
Proof.
  unfold collect_gems.
  destruct (pickup_loop (check_for_collision_with_list h w) w)
    as (_ & _ & _ & _ & _ & _ & _ & _ & _ & G & _).
  rewrite G. unfold check_for_collision_with_list.
  exact (remove_hits _ (gem_list w) [] (Forall_nil _)).
Qed.

Lemma occurs_once (g : Sprite) (l : list Sprite) :
  NoDup l -> In g l -> List.length (filter (Nat.eqb g) l) = 1%nat.
Proof.
  induction 1 as [|x l N D IH]; intros I; simpl.
  - contradiction.
  - destruct (Nat.eqb g x) eqn:E.
    + apply Nat.eqb_eq in E. subst x. simpl. f_equal.
      destruct (filter (Nat.eqb g) l) as [|y ys] eqn:F; [reflexivity|].
      exfalso. apply N.
      assert (Y : In y (filter (Nat.eqb g) l)) by (rewrite F; left; reflexivity).
      apply filter_In in Y. destruct Y as [Y1 Y2].
      apply Nat.eqb_eq in Y2. subst y. exact Y1.
    + apply IH. destruct I as [I | I]; [|exact I].
      subst x. rewrite Nat.eqb_refl in E. discriminate.
Qed.

Lemma occurs_never (g : Sprite) (l : list Sprite) :
  ~ In g l -> List.length (filter (Nat.eqb g) l) = 0%nat.
Proof.
  intros N. destruct (filter (Nat.eqb g) l) as [|y ys] eqn:F; [reflexivity|].
  exfalso. apply N.
  assert (Y : In y (filter (Nat.eqb g) l)) by (rewrite F; left; reflexivity).
  apply filter_In in Y. destruct Y as [Y1 Y2].
  apply Nat.eqb_eq in Y2. subst y. exact Y1.
Qed.

(** The level never goes down. *)
Lemma dispatch_level (h : Host) (ev : Event) (w w' : GameWindow) :
  dispatch h ev w = Some w' -> (level w <= level w')%Z.
Proof.
  destruct ev as [k m | k m | dt]; simpl; intros D.
  - inversion D. unfold on_key_press.
    case_ifs; simpl; lia.
  - inversion D. unfold on_key_release.
    case_ifs; simpl; lia.
  - destruct (on_update_inv _ _ _ _ D) as (w2 & E & W). subst w'.
    destruct (after_level_check h w2) as (Lv & _). rewrite Lv.
    destruct (check_level_end_frame h _ _ E)
      as (_ & _ & _ & _ & _ & [[_ S] | [_ S]]); rewrite S;
      rewrite update_player_forces_calls; simpl; lia.
Qed.

Lemma run_level (h : Host) (evs : list Event) (w w' : GameWindow) :
  run h evs w = Some w' -> (level w <= level w')%Z.
Proof.
  revert w. induction evs as [|ev evs IH]; intros w R; simpl in R.
  - inversion R. lia.
  - destruct (dispatch h ev w) as [w1|] eqn:D; [|discriminate].
    pose proof (dispatch_level h ev w w1 D). specialize (IH w1 R). lia.
Qed.

(** Within one level, a callback brings no sprite into [gem_list] and
    removes none that is not in it. *)
Lemma dispatch_gems (h : Host) (ev : Event) (w w' : GameWindow) (g : Sprite) :
  dispatch h ev w = Some w' ->
  level w' = level w ->
  ~ In g (gem_list w) ->
  ~ In g (gem_list w') /\
  count (is_removal_of g) (host w') = count (is_removal_of g) (host w).
Proof.
  destruct ev as [k m | k m | dt]; simpl; intros D Lv N.
  - inversion D. unfold on_key_press.
    case_ifs; cbn [call set_pressed gem_list host]; rewrite ?count_app;
      split; auto; unfold count; simpl; lia.
  - inversion D. unfold on_key_release.
    case_ifs; simpl; auto.
  - destruct (on_update_inv _ _ _ _ D) as (w2 & E & W).
    assert (W2 : w2 = update_player_forces h w).
    { destruct (check_level_end_frame h _ _ E)
        as (_ & _ & _ & _ & _ & [[_ S] | [_ S]]); [exact S|].
      exfalso. subst w'.
      destruct (after_level_check h w2) as (L2 & _).
      rewrite L2, S, update_player_forces_calls in Lv. simpl in Lv. lia. }
    assert (G2 : gem_list (manage_scrolling h w2) = gem_list w).
    { destruct (manage_scrolling_frame h w2) as (_ & _ & _ & G & _).
      rewrite G, W2, update_player_forces_calls. reflexivity. }
    split.
    + subst w'.
      destruct (physics_step_frame h (collect_gems h (manage_scrolling h w2)))
        as (_ & _ & G & _).
      rewrite G, collect_gems_list, G2. intros I.
      apply filter_In in I. destruct I as [I _]. exact (N I).
    + subst w'. rewrite (tick_log h w w2 E). unfold before_step.
      rewrite !count_app.
      destruct (count_outside_pickup h (update_player_forces h w) w2 g
                  (left_pressed w) (right_pressed w) (is_on_ground h (host w))
                  (is_removal_of g)) as (A & B & C); [auto|].
      destruct (count_gem_commands
                  (check_for_collision_with_list h (manage_scrolling h w2)) g)
        as (_ & _ & _ & R).
      rewrite A, B, C, R, occurs_never.
      * change (count (is_removal_of g) [Step]) with 0%nat. lia.
      * unfold check_for_collision_with_list. rewrite G2. intros I.
        apply filter_In in I. destruct I as [I _]. exact (N I).
Qed.

(** C9.  The pickup loop of a tick removes exactly the gems that overlap the
    player: [gem_list] keeps the others, in their order; each hit gem (of a
    list without repeats) gets exactly one removal, a gem that was not hit
    gets none, and there is one sound per hit.  A gem that is not in
    [gem_list] stays out of it and is never removed again for as long as the
    level lasts. *)
Theorem gems_are_collected_once (h : Host) :
  (forall w,
     gem_list (collect_gems h w)
     = filter (fun g => negb (check_for_collision h (host w)
                                                  (player_sprite w) g))
              (gem_list w) /\
     host (collect_gems h w)
     = host w ++ gem_commands (check_for_collision_with_list h w) /\
     count is_sound (gem_commands (check_for_collision_with_list h w))
     = List.length (check_for_collision_with_list h w) /\
     (forall g,
        ~ In g (check_for_collision_with_list h w) ->
        count (is_removal_of g)
              (gem_commands (check_for_collision_with_list h w)) = 0%nat) /\
     (NoDup (gem_list w) ->
      forall g,
        In g (check_for_collision_with_list h w) ->
        count (is_removal_of g)
              (gem_commands (check_for_collision_with_list h w)) = 1%nat /\
        ~ In g (gem_list (collect_gems h w))))
  /\
  (forall evs w w' g,
     run h evs w = Some w' ->
     level w' = level w ->
     ~ In g (gem_list w) ->
     ~ In g (gem_list w') /\
     count (is_removal_of g) (host w') = count (is_removal_of g) (host w)).
Proof.
  split.
  - intros w.
    destruct (collect_gems_frame h w) as (_ & _ & _ & _ & _ & _ & _ & Ho).
    split; [apply collect_gems_list|]. split; [exact Ho|].
    split; [apply (count_gem_commands _ 0%nat)|]. split.
    + intros g N.
      destruct (count_gem_commands (check_for_collision_with_list h w) g)
        as (_ & _ & _ & R).
      rewrite R. apply occurs_never. exact N.
    + intros D g I.
      destruct (count_gem_commands (check_for_collision_with_list h w) g)
        as (_ & _ & _ & R).
      split.
      * rewrite R. apply occurs_once; [|exact I].
        unfold check_for_collision_with_list. apply NoDup_filter. exact D.
      * rewrite collect_gems_list. intros J.
        apply filter_In in J. destruct J as [_ J].
        apply filter_In in I. destruct I as [_ I].
        rewrite I in J. discriminate.
  - induction evs as [|ev evs IH]; intros w w' g R Lv N; simpl in R.
    + inversion R; subst w'. auto.
    + destruct (dispatch h ev w) as [w1|] eqn:D; [|discriminate].
      pose proof (dispatch_level h ev w w1 D) as L1.
      pose proof (run_level h evs w1 w' R) as L2.
      assert (E1 : level w1 = level w) by lia.
      assert (E2 : level w' = level w1) by lia.
      destruct (dispatch_gems h ev w w1 g D E1 N) as [N1 C1].
      destruct (IH w1 w' g R E2 N1) as [N2 C2].
      split; [exact N2 | congruence].
Qed.

Lemma gems_are_collected_once_witness :
  (NoDup (gem_list demo_window) /\
   In 7%nat (check_for_collision_with_list demo demo_window) /\
   count (is_removal_of 7%nat)
         (gem_commands (check_for_collision_with_list demo demo_window))
   = 1%nat /\
   ~ In 7%nat (gem_list (collect_gems demo demo_window))) /\
  (~ In 8%nat (check_for_collision_with_list demo demo_window) /\
   count (is_removal_of 8%nat)
         (gem_commands (check_for_collision_with_list demo demo_window))
   = 0%nat) /\
  (exists w1 w',
     on_update demo 0 demo_window = Some w1 /\
     run demo [Update 0; KeyPress key.LEFT 0; Update 0] w1 = Some w' /\
     level w' = level w1 /\
     ~ In 7%nat (gem_list w1) /\
     ~ In 7%nat (gem_list w') /\
     count (is_removal_of 7%nat) (host w') = 1%nat).
Proof.
  destruct (gems_are_collected_once demo) as [A B].
  destruct (A demo_window) as (_ & _ & _ & Z0 & O1).
  assert (D : NoDup (gem_list demo_window)).
  { vm_compute. repeat constructor; simpl; intuition discriminate. }
  assert (I : In 7%nat (check_for_collision_with_list demo demo_window))
    by (vm_compute; left; reflexivity).
  assert (N : ~ In 8%nat (check_for_collision_with_list demo demo_window))
    by (vm_compute; intuition discriminate).
  split; [|split].
  - split; [exact D|]. split; [exact I|]. exact (O1 D 7%nat I).
  - split; [exact N|]. exact (Z0 8%nat N).
  - destruct (on_update demo 0 demo_window) as [w1|] eqn:U;
      [|vm_compute in U; discriminate U].
    destruct (run demo [Update 0; KeyPress key.LEFT 0; Update 0] w1)
      as [w'|] eqn:R;
      [|vm_compute in U; inversion U; subst w1;
        vm_compute in R; discriminate R].
    exists w1, w'. split; [reflexivity|]. split; [exact R|].
    assert (W1 : level w1 = 1%Z /\ ~ In 7%nat (gem_list w1) /\
                 count (is_removal_of 7%nat) (host w1) = 1%nat).
    { vm_compute in U. inversion U. vm_compute.
      repeat split; intuition discriminate. }
    destruct W1 as (L1 & N1 & C1).
    assert (Lv : level w' = level w1).
    { vm_compute in U. inversion U; subst w1.
      vm_compute in R. inversion R. reflexivity. }
    destruct (B _ w1 w' 7%nat R Lv N1) as [N' C'].
    repeat split; auto. congruence.
Defined.

(** ** The camera *)

Lemma screen_offset_integer (size z : Z) :
  is_integer (inject_Z size + inject_Z z) = true.
Proof.
  apply (is_integer_eq _ (size + z)). rewrite inject_Z_plus. reflexivity.
Qed.

Lemma scroll_commands_integral (h : Host) (w : GameWindow) :
  Forall (fun c => integral_viewport c = true) (scroll_commands h w).
Proof.
  unfold scroll_commands.
  destruct (scroll_offsets h w) as [[vl vb] [|]]; constructor; [|constructor].
  simpl. rewrite !is_integer_inject_Z.
  rewrite (screen_offset_integer 1920), (screen_offset_integer 1080).
  reflexivity.
Qed.

Lemma gem_commands_integral (hits : list Sprite) :
  Forall (fun c => integral_viewport c = true) (gem_commands hits).
Proof.
  induction hits as [|g hits IH]; simpl; repeat constructor. exact IH.
Qed.

Lemma before_step_integral (h : Host) (w w2 : GameWindow) :
  Forall (fun c => integral_viewport c = true) (before_step h w w2 ++ [Step]).
Proof.
  unfold before_step. repeat (apply Forall_app; split).
  - unfold input_table.
    destruct (left_pressed w), (right_pressed w); repeat constructor.
  - unfold level_commands.
    destruct (Qle_bool _ _); [destruct (read_tmx h _)|]; repeat constructor.
  - apply scroll_commands_integral.
  - apply gem_commands_integral.
  - repeat constructor.
Qed.

Lemma manage_scrolling_integer (h : Host) (w : GameWindow) :
  integer_offsets w -> integer_offsets (manage_scrolling h w).
Proof.
  unfold integer_offsets, manage_scrolling.
  destruct (scroll_offsets h w) as [[vl vb] [|]]; simpl; [|auto].
  intros _. split; apply is_integer_inject_Z.
Qed.

(** Integer offsets, in the window and in every viewport call of the log,
    are kept by every callback. *)
Lemma dispatch_integral (h : Host) (ev : Event) (w w' : GameWindow) :
  dispatch h ev w = Some w' ->
  integer_offsets w ->
  Forall (fun c => integral_viewport c = true) (host w) ->
  integer_offsets w' /\
  Forall (fun c => integral_viewport c = true) (host w').
Proof.
  destruct ev as [k m | k m | dt]; simpl; intros D I F.
  - inversion D. unfold on_key_press, integer_offsets in *.
    case_ifs; simpl; split; auto.
    apply Forall_app. split; [exact F | repeat constructor].
  - inversion D. unfold on_key_release, integer_offsets in *.
    case_ifs; simpl; split; auto.
  - destruct (on_update_inv _ _ _ _ D) as (w2 & E & W). subst w'.
    split.
    + destruct (after_level_check h w2) as (_ & _ & _ & Vl & Vb).
      unfold integer_offsets. rewrite Vl, Vb.
      apply manage_scrolling_integer.
      destruct (check_level_end_frame h _ _ E) as (_ & _ & Vb2 & Vl2 & _).
      unfold integer_offsets. rewrite Vl2, Vb2, update_player_forces_calls.
      exact I.
    + rewrite (tick_log h w w2 E). apply Forall_app. split; [exact F|].
      apply before_step_integral.
Qed.

Lemma run_integral (h : Host) (evs : list Event) (w w' : GameWindow) :
  run h evs w = Some w' ->
  integer_offsets w ->
  Forall (fun c => integral_viewport c = true) (host w) ->
  integer_offsets w' /\
  Forall (fun c => integral_viewport c = true) (host w').
Proof.
  revert w. induction evs as [|ev evs IH]; intros w R I F; simpl in R.
  - inversion R; subst w'. auto.
  - destruct (dispatch h ev w) as [w1|] eqn:D; [|discriminate].
    destruct (dispatch_integral h ev w w1 D I F) as [I1 F1].
    exact (IH w1 R I1 F1).
Qed.

(** C6, as the code has it.  When the camera update changes an offset, both
    offsets, as the four checks have added them up in float arithmetic, go
    through [int], which cuts toward zero (the floor of a non-negative
    number, the ceiling of a negative one), before they are stored and
    passed to the viewport call; from integer offsets on, after any run of
    callbacks, the offsets and the four arguments of every viewport call
    are integers. *)
Theorem viewport_offsets_are_truncated (h : Host) :
  (forall w, host (manage_scrolling h w) = host w ++ scroll_commands h w)
  /\
  (forall w l r b t,
     In (SetViewport l r b t) (scroll_commands h w) ->
     snd (scroll_offsets h w) = true /\
     l = inject_Z (py_int (fst (fst (scroll_offsets h w)))) /\
     b = inject_Z (py_int (snd (fst (scroll_offsets h w)))) /\
     r = SCREEN_WIDTH + l /\
     t = SCREEN_HEIGHT + b /\
     view_left (manage_scrolling h w) = l /\
     view_bottom (manage_scrolling h w) = b)
  /\
  (forall x : Q,
     (0 <= x -> py_int x = Qfloor x) /\ (x <= 0 -> py_int x = Qceiling x))
  /\
  (forall evs w w',
     run h evs w = Some w' ->
     integer_offsets w ->
     Forall (fun c => integral_viewport c = true) (host w) ->
     integer_offsets w' /\
     Forall (fun c => integral_viewport c = true) (host w')).
Proof.
  split; [|split; [|split]].
  - intros w. apply manage_scrolling_frame.
  - intros w l r b t. unfold scroll_commands, manage_scrolling.
    destruct (scroll_offsets h w) as [[vl vb] [|]]; simpl; [|contradiction].
    intros [E | []]. inversion E. repeat split; reflexivity.
  - intros x. split; [apply py_int_floor | apply py_int_ceiling].
  - apply run_integral.
Qed.

Lemma viewport_offsets_are_truncated_witness :
  In (SetViewport (-769) 1151 0 1080) (scroll_commands demo demo_window) /\
  py_int (fst (fst (scroll_offsets demo demo_window))) = (-769)%Z /\
  (fst (fst (scroll_offsets demo demo_window)) <= 0 /\
   py_int (fst (fst (scroll_offsets demo demo_window)))
   = Qceiling (fst (fst (scroll_offsets demo demo_window)))) /\
  (integer_offsets demo_window /\
   exists w',
     run demo_climb [Update 0; Update 0; Update 0] demo_window = Some w' /\
     integer_offsets w' /\
     Forall (fun c => integral_viewport c = true) (host w')).
Proof.
  destruct (viewport_offsets_are_truncated demo) as (_ & B & C & _).
  destruct (viewport_offsets_are_truncated demo_climb) as (_ & _ & _ & D).
  assert (I : In (SetViewport (-769) 1151 0 1080)
                 (scroll_commands demo demo_window))
    by (vm_compute; left; reflexivity).
  split; [exact I|]. split; [|split].
  - destruct (B demo_window _ _ _ _ I) as (_ & L & _).
    apply (f_equal Qnum) in L. symmetry. exact L.
  - assert (N : fst (fst (scroll_offsets demo demo_window)) <= 0)
      by (vm_compute; discriminate).
    split; [exact N|]. apply C. exact N.
  - assert (O : integer_offsets demo_window) by (split; reflexivity).
    split; [exact O|].
    destruct (run demo_climb [Update 0; Update 0; Update 0] demo_window)
      as [w'|] eqn:R; [|vm_compute in R; discriminate R].
    exists w'. split; [reflexivity|].
    apply (D _ demo_window w' R O).
    vm_compute. repeat constructor.
Defined.

(** C6 as the spec words it fails.  On the first tick the camera offset adds
    up to -769.5; the viewport call and [view_left] get -769, and the floor
    is -770. *)
Lemma viewport_offset_is_not_floored :
  integer_offsets demo_window /\
  fst (fst (scroll_offsets demo demo_window)) == -769.5 /\
  Qfloor (fst (fst (scroll_offsets demo demo_window))) = (-770)%Z /\
  exists w',
    on_update demo 0 demo_window = Some w' /\
    In (SetViewport (-769) 1151 0 1080) (host w') /\
    view_left w' = -769 /\
    ~ view_left w'
      == inject_Z (Qfloor (fst (fst (scroll_offsets demo demo_window)))).
Proof.
  split; [split; reflexivity|].
  split; [vm_compute; reflexivity|]. split; [vm_compute; reflexivity|].
  eexists. split; [reflexivity|].
  split; [vm_compute; right; right; right; right; right; right; left;
          reflexivity|].
  split; [vm_compute; reflexivity|].
  vm_compute. discriminate.
Qed.

(** The offsets add up in floats.  With the left edge at 130 + 2^-45 the
    deficit 900 - left rounds to 770.0, and the viewport gets -770; the
    exact deficit would have been cut to -769. *)
Lemma camera_adds_in_floats :
  sprite_left demo
    (set_position (162 + (1 # 35184372088832)) spawn_y PlayerSprite_init)
  == 130 + (1 # 35184372088832) /\
  py_int (0 - (900 - (130 + (1 # 35184372088832)))) = (-769)%Z /\
  fst (fst (scroll_offsets demo
              (set_player
                 (set_position (162 + (1 # 35184372088832)) spawn_y
                               PlayerSprite_init) demo_window)))
  == -770 /\
  view_left
    (manage_scrolling demo
       (set_player
          (set_position (162 + (1 # 35184372088832)) spawn_y
                        PlayerSprite_init) demo_window)) = -770.
Proof. vm_compute. repeat split; reflexivity. Qed.

Lemma scroll_offsets_horizontal_band (h : Host) (w : GameWindow) :
  view_left w + LEFT_VIEWPORT_MARGIN <= sprite_left h (player_sprite w) ->
  sprite_right h (player_sprite w)
    <= view_left w + SCREEN_WIDTH - RIGHT_VIEWPORT_MARGIN ->
  fst (fst (scroll_offsets h w)) = view_left w.
Proof.
  intros L R. apply Qltb_ge in L. apply Qltb_ge in R.
  unfold scroll_offsets, py_add, py_sub. cbv beta iota zeta.
  rewrite L. cbv beta iota zeta. rewrite R. cbv beta iota zeta.
  repeat (match goal with
          | |- context [if ?b then _ else _] => destruct b
          end; cbv beta iota zeta).
  all: reflexivity.
Qed.

Lemma scroll_offsets_vertical_band (h : Host) (w : GameWindow) :
  sprite_top h (player_sprite w)
    <= view_bottom w + SCREEN_HEIGHT - TOP_VIEWPORT_MARGIN ->
  view_bottom w + BOTTOM_VIEWPORT_MARGIN <= sprite_bottom h (player_sprite w) ->
  snd (fst (scroll_offsets h w)) = view_bottom w.
Proof.
  intros T B. apply Qltb_ge in T. apply Qltb_ge in B.
  unfold scroll_offsets, py_add, py_sub. cbv beta iota zeta.
  destruct (Qltb (sprite_left h (player_sprite w)) _); cbv beta iota zeta;
    destruct (Qltb _ (sprite_right h (player_sprite w))); cbv beta iota zeta;
    rewrite T; cbv beta iota zeta; rewrite B; reflexivity.
Qed.

Lemma snap_integer (x : Q) : is_integer x = true -> inject_Z (py_int x) == x.
Proof. intros I. apply Qeq_bool_iff in I. symmetry. exact I. Qed.

Lemma manage_scrolling_offsets (h : Host) (w : GameWindow) :
  integer_offsets w ->
  (fst (fst (scroll_offsets h w)) = view_left w ->
   view_left (manage_scrolling h w) == view_left w) /\
  (snd (fst (scroll_offsets h w)) = view_bottom w ->
   view_bottom (manage_scrolling h w) == view_bottom w).
Proof.
  intros [Il Ib]. unfold manage_scrolling.
  destruct (scroll_offsets h w) as [[vl vb] [|]]; simpl.
  - split; intros E; subst; apply snap_integer; assumption.
  - split; intros _; reflexivity.
Qed.

Lemma main_integral (h : Host) (w : GameWindow) :
  main h = Some w ->
  integer_offsets w /\ Forall (fun c => integral_viewport c = true) (host w).
Proof.
  unfold main. intros S.
  destruct (setup_inv _ _ _ _ S) as [m R].
  destruct (setup_some h _ GameWindow_init m R)
    as (w' & S' & _ & _ & _ & _ & _ & _ & Vb & Vl & _ & _ & Ho).
  rewrite S in S'. inversion S'; subst w'.
  unfold integer_offsets. rewrite Vb, Vl, Ho.
  split; [split; reflexivity | repeat constructor].
Qed.

Lemma reachable_integral (h : Host) (w : GameWindow) :
  reachable h w ->
  integer_offsets w /\ Forall (fun c => integral_viewport c = true) (host w).
Proof.
  induction 1 as [w M | w ev w' _ [I F] D].
  - exact (main_integral h w M).
  - exact (dispatch_integral h ev w w' D I F).
Qed.

(** C7.  In a tick of a run, let [w2] be the window the camera update gets.
    If the player's left and right edges are inside the horizontal band
    ([view_left + 900 <= left] and [right <= view_left + 1920 - 900]) the two
    horizontal checks leave the offset alone and [view_left] has the same
    value after the camera update, and after the tick, whatever the two
    vertical checks do; and the same for [view_bottom] with the top and bottom
    edges inside the vertical band, whatever the horizontal checks do. *)
Theorem margin_checks_are_independent (h : Host) (dt : Q) (w w2 : GameWindow) :
  reachable h w ->
  check_level_end h (update_player_forces h w) = Some w2 ->
  (view_left w2 + 900 <= sprite_left h (player_sprite w2) ->
   sprite_right h (player_sprite w2) <= view_left w2 + 1920 - 900 ->
   fst (fst (scroll_offsets h w2)) = view_left w2 /\
   view_left (manage_scrolling h w2) == view_left w2 /\
   exists w', on_update h dt w = Some w' /\ view_left w' == view_left w)
  /\
  (sprite_top h (player_sprite w2) <= view_bottom w2 + 1080 - 100 ->
   view_bottom w2 + 50 <= sprite_bottom h (player_sprite w2) ->
   snd (fst (scroll_offsets h w2)) = view_bottom w2 /\
   view_bottom (manage_scrolling h w2) == view_bottom w2 /\
   exists w', on_update h dt w = Some w' /\ view_bottom w' == view_bottom w).
Proof.
  intros Re E.
  destruct (reachable_integral h w Re) as [[Il Ib] _].
  destruct (check_level_end_frame h _ _ E) as (_ & _ & Vb & Vl & _).
  rewrite update_player_forces_calls in Vb, Vl. simpl in Vb, Vl.
  assert (I2 : integer_offsets w2)
    by (unfold integer_offsets; rewrite Vb, Vl; auto).
  destruct (manage_scrolling_offsets h w2 I2) as [Kl Kb].
  destruct (after_level_check h w2) as (_ & _ & _ & Al & Ab).
  split.
  - intros L R.
    pose proof (scroll_offsets_horizontal_band h w2 L R) as O.
    split; [exact O|]. split; [exact (Kl O)|].
    eexists. split; [exact (on_update_some h dt w w2 E)|].
    rewrite Al, <- Vl. exact (Kl O).
  - intros T B.
    pose proof (scroll_offsets_vertical_band h w2 T B) as O.
    split; [exact O|]. split; [exact (Kb O)|].
    eexists. split; [exact (on_update_some h dt w w2 E)|].
    rewrite Ab, <- Vb. exact (Kb O).
Qed.

Lemma margin_checks_are_independent_witness :
  (reachable demo_climb demo_climb_window /\
   snd (scroll_offsets demo_climb demo_climb_window) = true /\
   exists w',
     on_update demo_climb 0 demo_climb_window = Some w' /\
     ~ view_bottom w' == view_bottom demo_climb_window /\
     view_left w' == view_left demo_climb_window) /\
  (reachable demo demo_window /\
   snd (scroll_offsets demo demo_window) = true /\
   exists w',
     on_update demo 0 demo_window = Some w' /\
     ~ view_left w' == view_left demo_window /\
     view_bottom w' == view_bottom demo_window).
Proof.
  assert (R0 : reachable demo demo_window)
    by (apply reach_main; vm_compute; reflexivity).
  assert (R1 : reachable demo_climb demo_climb_window).
  { apply (reach_event demo_climb demo_window (Update 0)).
    - apply reach_main. vm_compute. reflexivity.
    - vm_compute. reflexivity. }
  split.
  - split; [exact R1|]. split; [vm_compute; reflexivity|].
    assert (E : check_level_end demo_climb
                  (update_player_forces demo_climb demo_climb_window)
                = Some (update_player_forces demo_climb demo_climb_window))
      by (vm_compute; reflexivity).
    destruct (margin_checks_are_independent demo_climb 0 demo_climb_window
                _ R1 E) as [A _].
    destruct A as (_ & _ & w' & U & K);
      [vm_compute; discriminate | vm_compute; discriminate |].
    exists w'. split; [exact U|]. split; [|exact K].
    vm_compute in U. inversion U. vm_compute. discriminate.
  - split; [exact R0|]. split; [vm_compute; reflexivity|].
    assert (E : check_level_end demo (update_player_forces demo demo_window)
                = Some (update_player_forces demo demo_window))
      by (vm_compute; reflexivity).
    destruct (margin_checks_are_independent demo 0 demo_window _ R0 E)
      as [_ B].
    destruct B as (_ & _ & w' & U & K);
      [vm_compute; discriminate | vm_compute; discriminate |].
    exists w'. split; [exact U|]. split; [|exact K].
    vm_compute in U. inversion U. vm_compute. discriminate.
Defined.

(* ================================================================== *)
(** * Further properties of the callbacks *)

(** ** What a reload starts from *)

(** X2.  A level transition builds the world of the new level from the map
    alone: the player sprite, the three lists and [end_of_map] are those a
    fresh window set up on that level would have; nothing of the old level
    is carried over into them. *)
Theorem reload_equals_fresh_load (h : Host) (w w2 : GameWindow) :
  inject_Z (end_of_map w) <= center_x (player_sprite w) ->
  check_level_end h w = Some w2 ->
  exists w0,
    setup h (level w + 1) GameWindow_init = Some w0 /\
    player_sprite w2 = player_sprite w0 /\
    wall_list w2 = wall_list w0 /\
    item_list w2 = item_list w0 /\
    gem_list w2 = gem_list w0 /\
    end_of_map w2 = end_of_map w0 /\
    level w2 = (level w + 1)%Z.
Proof.
  intros G E. apply Qle_bool_iff in G.
  unfold check_level_end in E. rewrite G in E. simpl in E.
  destruct (setup_inv _ _ _ _ E) as [m R].
  destruct (setup_some h (level w + 1) (set_level (level w + 1) w) m R)
    as (w2' & S & P & Wl & Il & Gl & _ & _ & _ & _ & Lv & Eo & _).
  rewrite S in E. inversion E; subst w2'.
  destruct (setup_some h (level w + 1) GameWindow_init m R)
    as (w0 & S0 & P0 & Wl0 & Il0 & Gl0 & _ & _ & _ & _ & _ & Eo0 & _).
  exists w0. simpl in Lv. repeat split; congruence.
Qed.

Lemma reload_equals_fresh_load_witness :
  inject_Z (end_of_map demo_window_at_end)
    <= center_x (player_sprite demo_window_at_end) /\
  exists w2 w0,
    check_level_end demo demo_window_at_end = Some w2 /\
    setup demo 2 GameWindow_init = Some w0 /\
    gem_list w2 = gem_list w0 /\
    player_sprite w2 = player_sprite w0.
Proof.
  assert (G : inject_Z (end_of_map demo_window_at_end)
              <= center_x (player_sprite demo_window_at_end))
    by (vm_compute; discriminate).
  split; [exact G|].
  destruct (check_level_end demo demo_window_at_end) as [w2|] eqn:E;
    [|vm_compute in E; discriminate E].
  destruct (reload_equals_fresh_load demo demo_window_at_end w2 G E)
    as (w0 & S & P & _ & _ & Gl & _).
  exists w2, w0. repeat split; assumption.
Defined.

(** ** The keys *)

(** X3.  A key that is none of the seven bound keys is ignored by
    [on_key_press], and a key that is none of the four movement keys (so
    also a jump key) is ignored by [on_key_release]: the window is
    unchanged. *)
Theorem other_keys_are_ignored (h : Host) (k m : Z) (w : GameWindow) :
  (~ In k [key.LEFT; key.A; key.RIGHT; key.D; key.UP; key.SPACE; key.W] ->
   on_key_press h k m w = w) /\
  (~ In k [key.LEFT; key.A; key.RIGHT; key.D] ->
   on_key_release k m w = w).
Proof.
  split; intros N.
  - unfold on_key_press.
    repeat match goal with
           | |- context [(k =? ?c)%Z] =>
             replace (k =? c)%Z with false
               by (symmetry; apply Z.eqb_neq; intros E; apply N;
                   rewrite E; simpl; tauto)
           end.
    reflexivity.
  - unfold on_key_release.
    repeat match goal with
           | |- context [(k =? ?c)%Z] =>
             replace (k =? c)%Z with false
               by (symmetry; apply Z.eqb_neq; intros E; apply N;
                   rewrite E; simpl; tauto)
           end.
    reflexivity.
Qed.

Lemma other_keys_are_ignored_witness :
  on_key_press demo 65364 0 demo_window = demo_window /\
  on_key_release key.SPACE 0 (set_pressed true true demo_window)
  = set_pressed true true demo_window.
Proof.
  split.
  - apply (proj1 (other_keys_are_ignored demo 65364 0 demo_window)).
    simpl. intuition discriminate.
  - apply (proj2 (other_keys_are_ignored demo key.SPACE 0
                    (set_pressed true true demo_window))).
    simpl. intuition discriminate.
Defined.

Lemma right_key_is_no_left_key (k : Z) :
  is_right_key k = true -> is_left_key k = false.
Proof.
  unfold is_right_key, is_left_key. rewrite orb_true_iff, !Z.eqb_eq.
  intros [E | E]; subst k; reflexivity.
Qed.

(** X4.  Pressing a movement key and releasing it (under either of its two
    bindings) gives back the window, when the flag was down before; and a
    repeated press of a movement key changes nothing more. *)
Theorem press_release_round_trip (h : Host) (k k' m m' : Z) (w : GameWindow) :
  (is_left_key k = true -> is_left_key k' = true -> left_pressed w = false ->
   on_key_release k' m' (on_key_press h k m w) = w) /\
  (is_right_key k = true -> is_right_key k' = true ->
   right_pressed w = false ->
   on_key_release k' m' (on_key_press h k m w) = w) /\
  (is_left_key k = true \/ is_right_key k = true ->
   on_key_press h k m (on_key_press h k m w) = on_key_press h k m w).
Proof.
  split; [|split].
  - intros K K' L. unfold on_key_press, on_key_release.
    fold (is_left_key k). fold (is_left_key k'). rewrite K, K'.
    destruct w. simpl in *. subst. reflexivity.
  - intros K K' R.
    pose proof (right_key_is_no_left_key k K) as N.
    pose proof (right_key_is_no_left_key k' K') as N'.
    unfold on_key_press, on_key_release.
    fold (is_left_key k). fold (is_left_key k').
    fold (is_right_key k). fold (is_right_key k').
    rewrite N, N', K, K'.
    destruct w. simpl in *. subst. reflexivity.
  - intros [K | K].
    + unfold on_key_press. fold (is_left_key k). rewrite K. reflexivity.
    + pose proof (right_key_is_no_left_key k K) as N.
      unfold on_key_press. fold (is_left_key k). fold (is_right_key k).
      rewrite N, K. reflexivity.
Qed.

Lemma press_release_round_trip_witness :
  on_key_release key.A 0 (on_key_press demo key.LEFT 0 demo_window)
  = demo_window /\
  on_key_release key.RIGHT 0 (on_key_press demo key.D 0 demo_window)
  = demo_window /\
  on_key_press demo key.D 0 (on_key_press demo key.D 0 demo_window)
  = on_key_press demo key.D 0 demo_window.
Proof.
  split; [|split].
  - apply (proj1 (press_release_round_trip demo key.LEFT key.A 0 0
                    demo_window)); reflexivity.
  - apply (proj1 (proj2 (press_release_round_trip demo key.D key.RIGHT 0 0
                           demo_window))); reflexivity.
  - apply (proj2 (proj2 (press_release_round_trip demo key.D key.D 0 0
                           demo_window))).
    right. reflexivity.
Defined.

(** What the key callbacks leave alone. *)
Lemma on_key_press_frame (h : Host) (k m : Z) (w : GameWindow) :
  player_sprite (on_key_press h k m w) = player_sprite w /\
  wall_list (on_key_press h k m w) = wall_list w /\
  item_list (on_key_press h k m w) = item_list w /\
  gem_list (on_key_press h k m w) = gem_list w /\
  level (on_key_press h k m w) = level w /\
  end_of_map (on_key_press h k m w) = end_of_map w /\
  (host (on_key_press h k m w) = host w \/
   host (on_key_press h k m w)
   = host w ++ [ApplyImpulse (0, PLAYER_JUMP_IMPULSE)]).
Proof.
  unfold on_key_press. case_ifs; simpl; repeat split; auto.
Qed.

Lemma on_key_release_frame (k m : Z) (w : GameWindow) :
  player_sprite (on_key_release k m w) = player_sprite w /\
  wall_list (on_key_release k m w) = wall_list w /\
  item_list (on_key_release k m w) = item_list w /\
  gem_list (on_key_release k m w) = gem_list w /\
  level (on_key_release k m w) = level w /\
  end_of_map (on_key_release k m w) = end_of_map w /\
  host (on_key_release k m w) = host w.
Proof.
  unfold on_key_release. case_ifs; simpl; repeat split; auto.
Qed.

(** ** Counting the commands of a tick *)

Lemma count_input_table (l r b : bool) :
  count is_friction (input_table l r b) = 1%nat /\
  count is_new_engine (input_table l r b) = 0%nat /\
  count is_removal (input_table l r b) = 0%nat.
Proof. destruct l, r, b; repeat split; reflexivity. Qed.

Lemma count_level_commands (h : Host) (w : GameWindow) :
  count is_friction (level_commands h w) = 0%nat /\
  count is_removal (level_commands h w) = 0%nat /\
  count is_new_engine (level_commands h w)
  = (if Qle_bool (inject_Z (end_of_map w)) (center_x (player_sprite w))
     then match read_tmx h (level w + 1) with
          | Some _ => 1
          | None => 0
          end
     else 0)%nat.
Proof.
  unfold level_commands.
  destruct (Qle_bool _ _); [destruct (read_tmx h _)|];
    repeat split; reflexivity.
Qed.

Lemma count_scroll_commands (h : Host) (w : GameWindow) :
  count is_friction (scroll_commands h w) = 0%nat /\
  count is_removal (scroll_commands h w) = 0%nat /\
  count is_new_engine (scroll_commands h w) = 0%nat.
Proof.
  unfold scroll_commands.
  destruct (scroll_offsets h w) as [[vl vb] [|]]; repeat split; reflexivity.
Qed.

Lemma count_gem_commands_more (hits : list Sprite) :
  count is_friction (gem_commands hits) = 0%nat /\
  count is_new_engine (gem_commands hits) = 0%nat /\
  count is_removal (gem_commands hits) = List.length hits.
Proof.
  unfold count. induction hits as [|x hits (F & N & R)]; simpl.
  - auto.
  - rewrite F, N, R. auto.
Qed.

(** What a tick that returns adds up to: [w2] is the window after the level
    check, [hits] the gems the pickup loop found. *)
Lemma tick_summary (h : Host) (dt : Q) (w w' : GameWindow) :
  on_update h dt w = Some w' ->
  exists w2 n,
    check_level_end h (update_player_forces h w) = Some w2 /\
    (n = 0%nat /\ w2 = update_player_forces h w /\
     Qle_bool (inject_Z (end_of_map w)) (center_x (player_sprite w)) = false
     \/
     n = 1%nat /\
     Qle_bool (inject_Z (end_of_map w)) (center_x (player_sprite w)) = true) /\
    level w' = (level w + Z.of_nat n)%Z /\
    gem_list w'
    = filter (fun g => negb (check_for_collision h (host (manage_scrolling h w2))
                               (player_sprite w2) g))
             (gem_list w2) /\
    count is_new_engine (host w') = (count is_new_engine (host w) + n)%nat /\
    count is_step (host w') = S (count is_step (host w)) /\
    count is_friction (host w') = S (count is_friction (host w)) /\
    count is_sound (host w')
    = (count is_sound (host w)
       + List.length (check_for_collision_with_list h (manage_scrolling h w2)))%nat /\
    count is_removal (host w')
    = (count is_removal (host w)
       + List.length (check_for_collision_with_list h (manage_scrolling h w2)))%nat.
Proof.
  intros U. destruct (on_update_inv _ _ _ _ U) as (w2 & E & W).
  pose proof (tick_log h w w2 E) as L. rewrite <- W in L.
  destruct (after_level_check h w2) as (Lv & _). rewrite <- W in Lv.
  destruct (physics_step_frame h (collect_gems h (manage_scrolling h w2)))
    as (_ & _ & Gl & _).
  rewrite <- W, collect_gems_list in Gl.
  destruct (manage_scrolling_frame h w2) as (P2 & _ & _ & G2 & _).
  rewrite P2, G2 in Gl.
  destruct (count_input_table (left_pressed w) (right_pressed w)
              (is_on_ground h (host w))) as (If & In' & Ir).
  destruct (count_level_commands h (update_player_forces h w))
    as (Lf & Lr & Ln).
  destruct (count_scroll_commands h w2) as (Sf & Sr & Sn).
  destruct (count_gem_commands_more
              (check_for_collision_with_list h (manage_scrolling h w2)))
    as (Gf & Gn & Gr).
  destruct (count_gem_commands
              (check_for_collision_with_list h (manage_scrolling h w2)) 0%nat)
    as (_ & Gs & Gp & _).
  destruct (count_outside_pickup h (update_player_forces h w) w2 0%nat
              (left_pressed w) (right_pressed w) (is_on_ground h (host w))
              is_step) as (A1 & A2 & A3); [auto|].
  destruct (count_outside_pickup h (update_player_forces h w) w2 0%nat
              (left_pressed w) (right_pressed w) (is_on_ground h (host w))
              is_sound) as (B1 & B2 & B3); [auto|].
  assert (Counts :
    forall n,
      count is_new_engine (level_commands h (update_player_forces h w)) = n ->
      count is_new_engine (host w') = (count is_new_engine (host w) + n)%nat /\
      count is_step (host w') = S (count is_step (host w)) /\
      count is_friction (host w') = S (count is_friction (host w)) /\
      count is_sound (host w')
      = (count is_sound (host w)
         + List.length
             (check_for_collision_with_list h (manage_scrolling h w2)))%nat /\
      count is_removal (host w')
      = (count is_removal (host w)
         + List.length
             (check_for_collision_with_list h (manage_scrolling h w2)))%nat).
  { intros n Hn. rewrite L. unfold before_step. rewrite !count_app.
    rewrite If, In', Ir, Lf, Lr, Hn, Sf, Sr, Sn, Gf, Gn, Gr, Gs, Gp,
      A1, A2, A3, B1, B2, B3.
    change (count is_new_engine [Step]) with 0%nat.
    change (count is_step [Step]) with 1%nat.
    change (count is_friction [Step]) with 0%nat.
    change (count is_sound [Step]) with 0%nat.
    change (count is_removal [Step]) with 0%nat.
    repeat split; lia. }
  assert (F : player_sprite (update_player_forces h w) = player_sprite w /\
              end_of_map (update_player_forces h w) = end_of_map w /\
              level (update_player_forces h w) = level w)
    by (rewrite update_player_forces_calls; simpl; auto).
  destruct F as (Fp & Fe & Fl). rewrite Fp, Fe, Fl in Ln.
  destruct (check_level_end_frame h _ _ E)
    as (_ & _ & _ & _ & _ & [[B S] | [B S]]); rewrite Fp, Fe in B.
  - exists w2, 0%nat. split; [exact E|]. split; [left; auto|].
    split; [rewrite Lv, S, Fl; simpl; lia|]. split; [exact Gl|].
    apply Counts. rewrite Ln, B. reflexivity.
  - exists w2, 1%nat. split; [exact E|]. split; [right; auto|].
    split; [rewrite Lv, S, Fl; simpl; lia|]. split; [exact Gl|].
    apply Counts. rewrite Ln, B.
    unfold check_level_end in E. rewrite Fp, Fe, B in E. simpl in E.
    destruct (setup_inv _ _ _ _ E) as [m R]. rewrite Fl in R.
    rewrite R. reflexivity.
Qed.

Lemma filter_split_length (c : Sprite -> bool) (l : list Sprite) :
  (List.length (filter c l) + List.length (filter (fun x => negb (c x)) l)
   = List.length l)%nat.
Proof.
  induction l as [|x l IH]; simpl; [reflexivity|].
  destruct (c x); simpl; lia.
Qed.

(** What one callback adds up to; [u] is 1 for a tick and 0 for a key. *)
Lemma dispatch_summary (h : Host) (ev : Event) (w w' : GameWindow) :
  dispatch h ev w = Some w' ->
  let u := if is_update ev then 1%nat else 0%nat in
  count is_step (host w') = (count is_step (host w) + u)%nat /\
  count is_friction (host w') = (count is_friction (host w) + u)%nat /\
  (level w <= level w' <= level w + Z.of_nat u)%Z /\
  (count is_sound (host w') + count is_removal (host w)
   = count is_sound (host w) + count is_removal (host w'))%nat /\
  (Z.of_nat (count is_new_engine (host w')) - level w'
   = Z.of_nat (count is_new_engine (host w)) - level w)%Z /\
  (level w' = level w ->
   (count is_sound (host w') + List.length (gem_list w')
    = count is_sound (host w) + List.length (gem_list w))%nat).
Proof.
  destruct ev as [k m | k m | dt]; simpl; intros D.
  - inversion D; subst w'.
    destruct (on_key_press_frame h k m w)
      as (_ & _ & _ & G & L & _ & [Ho | Ho]);
      rewrite Ho, G, L, ?count_app;
      repeat match goal with
             | |- context [count ?f [ApplyImpulse ?i]] =>
               change (count f [ApplyImpulse i]) with 0%nat
             end;
      repeat split; lia.
  - inversion D; subst w'.
    destruct (on_key_release_frame k m w) as (_ & _ & _ & G & L & _ & Ho).
    rewrite Ho, G, L. repeat split; lia.
  - destruct (tick_summary h dt w w' D)
      as (w2 & n & E & Cases & Lv & Gl & Cn & Cs & Cf & Cp & Cr).
    rewrite Lv, Cn, Cs, Cf, Cp, Cr.
    assert (N : (n <= 1)%nat) by (destruct Cases as [(N & _) | (N & _)]; lia).
    repeat split; try lia.
    intros Same.
    destruct Cases as [(N0 & W2 & _) | (N1 & _)]; [|lia].
    rewrite Gl. unfold check_for_collision_with_list.
    destruct (manage_scrolling_frame h w2) as (P2 & _ & _ & G2 & _).
    rewrite P2, G2.
    assert (G : gem_list w2 = gem_list w)
      by (rewrite W2, update_player_forces_calls; reflexivity).
    rewrite G.
    pose proof (filter_split_length
                  (check_for_collision h (host (manage_scrolling h w2))
                                       (player_sprite w2)) (gem_list w)).
    lia.
Qed.

(** The same, over a run of callbacks. *)
Lemma run_summary (h : Host) (evs : list Event) (w w' : GameWindow) :
  run h evs w = Some w' ->
  count is_step (host w') = (count is_step (host w) + count_updates evs)%nat /\
  count is_friction (host w')
  = (count is_friction (host w) + count_updates evs)%nat /\
  (level w <= level w' <= level w + Z.of_nat (count_updates evs))%Z /\
  (count is_sound (host w') + count is_removal (host w)
   = count is_sound (host w) + count is_removal (host w'))%nat /\
  (Z.of_nat (count is_new_engine (host w')) - level w'
   = Z.of_nat (count is_new_engine (host w)) - level w)%Z /\
  (level w' = level w ->
   (count is_sound (host w') + List.length (gem_list w')
    = count is_sound (host w) + List.length (gem_list w))%nat).
Proof.
  revert w. induction evs as [|ev evs IH]; intros w R; simpl in R.
  - inversion R; subst w'. unfold count_updates. simpl.
    repeat split; lia.
  - destruct (dispatch h ev w) as [w1|] eqn:D; [|discriminate].
    destruct (dispatch_summary h ev w w1 D) as (S1 & F1 & L1 & P1 & E1 & C1).
    destruct (IH w1 R) as (S2 & F2 & L2 & P2 & E2 & C2).
    assert (U : count_updates (ev :: evs)
                = ((if is_update ev then 1 else 0) + count_updates evs)%nat)
      by (unfold count_updates; simpl; destruct (is_update ev); reflexivity).
    rewrite U. repeat split; lia.
Qed.

(** How [main] leaves the window. *)
Lemma main_window (h : Host) (w : GameWindow) :
  main h = Some w ->
  exists m,
    read_tmx h 1 = Some m /\
    level w = 1%Z /\
    host w = setup_commands m /\
    player_sprite w = set_position spawn_x spawn_y PlayerSprite_init /\
    wall_list w = Platforms m /\
    item_list w = Dynamic_Items m /\
    gem_list w = Valuables m /\
    end_of_map w = (map_width m * 30 + 800)%Z.
Proof.
  unfold main. intros S. destruct (setup_inv _ _ _ _ S) as [m R].
  destruct (setup_some h _ GameWindow_init m R)
    as (w' & S' & P & Wl & Il & Gl & _ & _ & _ & _ & Lv & Eo & Ho).
  rewrite S in S'. inversion S'; subst w'.
  exists m. repeat split; auto.
Qed.

(** X5.  Every tick that returns steps the physics exactly once and sets
    the friction exactly once, and no key callback does either: over a run
    of callbacks both counts grow by the number of ticks. *)
Theorem one_step_one_friction_per_update (h : Host) (evs : list Event)
    (w w' : GameWindow) :
  run h evs w = Some w' ->
  count is_step (host w') = (count is_step (host w) + count_updates evs)%nat /\
  count is_friction (host w')
  = (count is_friction (host w) + count_updates evs)%nat.
Proof.
  intros R. destruct (run_summary h evs w w' R) as (S & F & _).
  split; assumption.
Qed.

Lemma one_step_one_friction_per_update_witness :
  exists w',
    run demo [Update 0; KeyPress key.UP 0; Update 0; KeyRelease key.UP 0]
        demo_window = Some w' /\
    count is_step (host w') = 2%nat /\
    count is_friction (host w') = 2%nat.
Proof.
  destruct (run demo [Update 0; KeyPress key.UP 0; Update 0;
                      KeyRelease key.UP 0] demo_window) as [w'|] eqn:R;
    [|vm_compute in R; discriminate R].
  exists w'. split; [reflexivity|].
  destruct (one_step_one_friction_per_update demo _ demo_window w' R)
    as [S F].
  split; [rewrite S | rewrite F]; vm_compute; reflexivity.
Defined.

(** X6.  The level never goes down and goes up by at most one a tick: over
    a run it grows by at most the number of ticks, and key callbacks leave
    it alone. *)
Theorem level_moves_by_at_most_one_per_update (h : Host) (evs : list Event)
    (w w' : GameWindow) :
  run h evs w = Some w' ->
  (level w <= level w' <= level w + Z.of_nat (count_updates evs))%Z.
Proof.
  intros R. destruct (run_summary h evs w w' R) as (_ & _ & L & _).
  exact L.
Qed.

Lemma level_moves_by_at_most_one_per_update_witness :
  exists w',
    run demo [KeyPress key.D 0; Update 0; Update 0] demo_window_at_end
    = Some w' /\
    (1 <= level w' <= 3)%Z.
Proof.
  destruct (run demo [KeyPress key.D 0; Update 0; Update 0]
                demo_window_at_end) as [w'|] eqn:R;
    [|vm_compute in R; discriminate R].
  exists w'. split; [reflexivity|].
  exact (level_moves_by_at_most_one_per_update demo _ demo_window_at_end w' R).
Defined.

(** X7.  Sounds and removals come in pairs: over any run, across levels
    too, as many pickup sounds are played as sprites are removed; and in
    every window of a run from [main] the two totals are equal. *)
Theorem one_sound_per_removal (h : Host) :
  (forall evs w w',
     run h evs w = Some w' ->
     (count is_sound (host w') + count is_removal (host w)
      = count is_sound (host w) + count is_removal (host w'))%nat)
  /\
  (forall w, reachable h w ->
             count is_sound (host w) = count is_removal (host w)).
Proof.
  split.
  - intros evs w w' R.
    destruct (run_summary h evs w w' R) as (_ & _ & _ & P & _). exact P.
  - induction 1 as [w M | w ev w' _ IH D].
    + destruct (main_window h w M) as (m & _ & _ & Ho & _).
      rewrite Ho. reflexivity.
    + destruct (dispatch_summary h ev w w' D) as (_ & _ & _ & P & _). lia.
Qed.

Lemma one_sound_per_removal_witness :
  reachable demo demo_window /\
  exists w',
    run demo [Update 0; Update 0] demo_window = Some w' /\
    count is_sound (host w') = 1%nat /\
    count is_removal (host w') = 1%nat.
Proof.
  destruct (one_sound_per_removal demo) as [A B].
  assert (R0 : reachable demo demo_window)
    by (apply reach_main; vm_compute; reflexivity).
  split; [exact R0|].
  destruct (run demo [Update 0; Update 0] demo_window) as [w'|] eqn:R;
    [|vm_compute in R; discriminate R].
  exists w'. split; [reflexivity|].
  pose proof (A _ _ _ R) as P. pose proof (B _ R0) as Q0.
  assert (S : count is_sound (host w') = 1%nat).
  { vm_compute in R. inversion R. vm_compute. reflexivity. }
  split; [exact S|]. lia.
Defined.

(** X8.  Within one level no gem is lost without its sound: over a run that
    ends on the level it started on, the gems left in [gem_list] plus the
    sounds played add up to what they were. *)
Theorem gems_plus_sounds_conserved (h : Host) (evs : list Event)
    (w w' : GameWindow) :
  run h evs w = Some w' ->
  level w' = level w ->
  (count is_sound (host w') + List.length (gem_list w')
   = count is_sound (host w) + List.length (gem_list w))%nat.
Proof.
  intros R Same.
  destruct (run_summary h evs w w' R) as (_ & _ & _ & _ & _ & C).
  exact (C Same).
Qed.

Lemma gems_plus_sounds_conserved_witness :
  exists w',
    run demo [Update 0; Update 0; Update 0] demo_window = Some w' /\
    level w' = level demo_window /\
    List.length (gem_list w') = 2%nat /\
    (count is_sound (host w') + 2 = 0 + 3)%nat.
Proof.
  destruct (run demo [Update 0; Update 0; Update 0] demo_window)
    as [w'|] eqn:R; [|vm_compute in R; discriminate R].
  exists w'. split; [reflexivity|].
  assert (L : level w' = level demo_window /\
              List.length (gem_list w') = 2%nat).
  { vm_compute in R. inversion R. split; reflexivity. }
  destruct L as [L G]. split; [exact L|]. split; [exact G|].
  pose proof (gems_plus_sounds_conserved demo _ demo_window w' R L) as C.
  rewrite G in C. exact C.
Defined.

(** X9.  Each level has had its own engine: in every window of a run from
    [main] the number of engines created so far is the level number. *)
Theorem engines_match_level (h : Host) (w : GameWindow) :
  reachable h w ->
  Z.of_nat (count is_new_engine (host w)) = level w.
Proof.
  induction 1 as [w M | w ev w' _ IH D].
  - destruct (main_window h w M) as (m & _ & Lv & Ho & _).
    rewrite Ho, Lv. reflexivity.
  - destruct (dispatch_summary h ev w w' D) as (_ & _ & _ & _ & E & _). lia.
Qed.

Lemma engines_match_level_witness :
  reachable demo demo_window /\
  count is_new_engine (host demo_window) = 1%nat.
Proof.
  assert (R0 : reachable demo demo_window)
    by (apply reach_main; vm_compute; reflexivity).
  split; [exact R0|].
  apply Nat2Z.inj. rewrite (engines_match_level demo demo_window R0).
  reflexivity.
Defined.

(** ** The arguments of the commands *)

Lemma before_step_sane (h : Host) (w w2 : GameWindow) :
  Forall (fun c => sane_command c = true) (before_step h w w2 ++ [Step]).
Proof.
  unfold before_step. repeat (apply Forall_app; split).
  - unfold input_table.
    destruct (left_pressed w), (right_pressed w), (is_on_ground h (host w));
      repeat constructor.
  - unfold level_commands.
    destruct (Qle_bool _ _); [destruct (read_tmx h _)|]; repeat constructor.
  - unfold scroll_commands.
    destruct (scroll_offsets h w2) as [[vl vb] [|]]; repeat constructor.
  - induction (check_for_collision_with_list h (manage_scrolling h w2))
      as [|g hits IH]; simpl; repeat constructor. exact IH.
  - repeat constructor.
Qed.

Lemma dispatch_sane (h : Host) (ev : Event) (w w' : GameWindow) :
  dispatch h ev w = Some w' ->
  Forall (fun c => sane_command c = true) (host w) ->
  Forall (fun c => sane_command c = true) (host w').
Proof.
  destruct ev as [k m | k m | dt]; simpl; intros D F.
  - inversion D; subst w'.
    destruct (on_key_press_frame h k m w)
      as (_ & _ & _ & _ & _ & _ & [Ho | Ho]); rewrite Ho; [exact F|].
    apply Forall_app. split; [exact F | repeat constructor].
  - inversion D; subst w'.
    destruct (on_key_release_frame k m w) as (_ & _ & _ & _ & _ & _ & Ho).
    rewrite Ho. exact F.
  - destruct (on_update_inv _ _ _ _ D) as (w2 & E & W). subst w'.
    rewrite (tick_log h w w2 E). apply Forall_app. split; [exact F|].
    apply before_step_sane.
Qed.

(** X10.  The program only ever asks the engine for a horizontal force of
    8000 or 900 (either way), a friction of 0 or 1, and the jump impulse
    (0, 1400): a log that is so stays so over any run, and every log of a
    run from [main] is so. *)
Theorem log_commands_are_sane (h : Host) :
  (forall evs w w',
     run h evs w = Some w' ->
     Forall (fun c => sane_command c = true) (host w) ->
     Forall (fun c => sane_command c = true) (host w'))
  /\
  (forall w, reachable h w ->
             Forall (fun c => sane_command c = true) (host w)).
Proof.
  split.
  - induction evs as [|ev evs IH]; intros w w' R F; simpl in R.
    + inversion R; subst w'. exact F.
    + destruct (dispatch h ev w) as [w1|] eqn:D; [|discriminate].
      exact (IH w1 w' R (dispatch_sane h ev w w1 D F)).
  - induction 1 as [w M | w ev w' _ IH D].
    + destruct (main_window h w M) as (m & _ & _ & Ho & _).
      rewrite Ho. repeat constructor.
    + exact (dispatch_sane h ev w w' D IH).
Qed.

Lemma log_commands_are_sane_witness :
  exists w',
    run demo_air [KeyPress key.A 0; Update 0; KeyPress key.W 0; Update 0]
        demo_window = Some w' /\
    In (ApplyForce (-900, 0)) (host w') /\
    Forall (fun c => sane_command c = true) (host w').
Proof.
  destruct (log_commands_are_sane demo_air) as [A B].
  assert (R0 : reachable demo_air demo_window)
    by (apply reach_main; vm_compute; reflexivity).
  destruct (run demo_air [KeyPress key.A 0; Update 0; KeyPress key.W 0;
                          Update 0] demo_window) as [w'|] eqn:R;
    [|vm_compute in R; discriminate R].
  exists w'. split; [reflexivity|]. split.
  - vm_compute in R. inversion R. simpl. intuition.
  - exact (A _ _ _ R (B _ R0)).
Defined.

(** ** The world and its map *)

Lemma remove_first_incl (s : Sprite) (l : list Sprite) :
  incl (remove_first s l) l.
Proof.
  induction l as [|x l IH]; simpl; [apply incl_refl|].
  destruct (Nat.eqb s x).
  - apply incl_tl, incl_refl.
  - intros y [Y | Y]; [left; exact Y | right; exact (IH y Y)].
Qed.

Lemma remove_hits_incl (hits l : list Sprite) :
  incl (fold_left (fun acc g => remove_first g acc) hits l) l.
Proof.
  revert l. induction hits as [|g hits IH]; intros l; simpl.
  - apply incl_refl.
  - eapply incl_tran; [apply IH | apply remove_first_incl].
Qed.

(** After the level check, a tick only takes sprites out of the lists. *)
Lemma after_level_check_world (h : Host) (w2 : GameWindow) :
  end_of_map (physics_step h (collect_gems h (manage_scrolling h w2)))
  = end_of_map w2 /\
  incl (wall_list (physics_step h (collect_gems h (manage_scrolling h w2))))
       (wall_list w2) /\
  incl (item_list (physics_step h (collect_gems h (manage_scrolling h w2))))
       (item_list w2) /\
  incl (gem_list (physics_step h (collect_gems h (manage_scrolling h w2))))
       (gem_list w2).
Proof.
  destruct (physics_step_frame h (collect_gems h (manage_scrolling h w2)))
    as (Wl & Il & Gl & _ & _ & _ & _ & _ & Eo & _).
  destruct (manage_scrolling_frame h w2)
    as (_ & Wl2 & Il2 & Gl2 & _ & _ & _ & Eo2 & _).
  unfold collect_gems in *.
  destruct (pickup_loop (check_for_collision_with_list h
                           (manage_scrolling h w2)) (manage_scrolling h w2))
    as (_ & _ & _ & _ & _ & _ & Eo1 & Wl1 & Il1 & Gl1 & _).
  rewrite Wl, Il, Gl, Eo, Wl1, Il1, Gl1, Eo1, Wl2, Il2, Gl2, Eo2.
  repeat split; try apply remove_hits_incl.
Qed.

Lemma check_level_end_world (h : Host) (w w2 : GameWindow) :
  check_level_end h w = Some w2 ->
  w2 = w \/
  exists m,
    read_tmx h (level w + 1) = Some m /\
    level w2 = (level w + 1)%Z /\
    player_sprite w2 = set_position spawn_x spawn_y PlayerSprite_init /\
    wall_list w2 = Platforms m /\
    item_list w2 = Dynamic_Items m /\
    gem_list w2 = Valuables m /\
    end_of_map w2 = (map_width m * 30 + 800)%Z.
Proof.
  unfold check_level_end.
  destruct (Qle_bool _ _); [|intros E; inversion E; left; reflexivity].
  simpl. intros E. right.
  destruct (setup_inv _ _ _ _ E) as [m R].
  destruct (setup_some h (level w + 1) (set_level (level w + 1) w) m R)
    as (w' & S & P & Wl & Il & Gl & _ & _ & _ & _ & Lv & Eo & _).
  rewrite S in E. inversion E; subst w'.
  exists m. simpl in Lv. repeat split; auto.
Qed.

(** X11.  The window always belongs to a map that exists: in every window
    of a run from [main] the level is at least 1, its map can be read,
    [end_of_map] is that map's width times 30 plus 800, and the three sprite
    lists hold only sprites of that map's layers. *)
Theorem world_matches_map (h : Host) (w : GameWindow) :
  reachable h w ->
  (1 <= level w)%Z /\
  exists m,
    read_tmx h (level w) = Some m /\
    end_of_map w = (map_width m * 30 + 800)%Z /\
    incl (wall_list w) (Platforms m) /\
    incl (item_list w) (Dynamic_Items m) /\
    incl (gem_list w) (Valuables m).
Proof.
  induction 1 as [w M | w ev w' _ (L & m & R & Eo & Wl & Il & Gl) D].
  - destruct (main_window h w M)
      as (m & R & Lv & _ & _ & Wl & Il & Gl & Eo).
    rewrite Lv. split; [lia|]. exists m.
    rewrite Wl, Il, Gl. repeat split; auto; apply incl_refl.
  - destruct ev as [k mo | k mo | dt]; simpl in D.
    + inversion D; subst w'.
      destruct (on_key_press_frame h k mo w)
        as (_ & Wl' & Il' & Gl' & Lv' & Eo' & _).
      rewrite Wl', Il', Gl', Lv', Eo'. split; [exact L|]. exists m. auto.
    + inversion D; subst w'.
      destruct (on_key_release_frame k mo w)
        as (_ & Wl' & Il' & Gl' & Lv' & Eo' & _).
      rewrite Wl', Il', Gl', Lv', Eo'. split; [exact L|]. exists m. auto.
    + destruct (on_update_inv _ _ _ _ D) as (w2 & E & W). subst w'.
      destruct (after_level_check h w2) as (Lv' & _).
      destruct (after_level_check_world h w2) as (Eo' & Wl' & Il' & Gl').
      rewrite Lv', Eo'.
      destruct (check_level_end_world h _ _ E)
        as [S | (m2 & R2 & Lv2 & _ & Wl2 & Il2 & Gl2 & Eo2)].
      * assert (F : wall_list w2 = wall_list w /\ item_list w2 = item_list w /\
                    gem_list w2 = gem_list w /\ level w2 = level w /\
                    end_of_map w2 = end_of_map w)
          by (rewrite S, update_player_forces_calls; simpl; auto).
        destruct F as (F1 & F2 & F3 & F4 & F5).
        rewrite F1 in Wl'. rewrite F2 in Il'. rewrite F3 in Gl'.
        rewrite F4, F5. split; [exact L|]. exists m.
        repeat split; auto; eapply incl_tran; eassumption.
      * rewrite update_player_forces_calls in R2, Lv2. simpl in R2, Lv2.
        rewrite Wl2 in Wl'. rewrite Il2 in Il'. rewrite Gl2 in Gl'.
        rewrite Lv2, Eo2. split; [lia|]. exists m2. auto.
Qed.

Lemma world_matches_map_witness :
  reachable demo_climb demo_climb_window /\
  (1 <= level demo_climb_window)%Z /\
  incl (gem_list demo_climb_window) [7; 8; 9]%nat.
Proof.
  assert (R1 : reachable demo_climb demo_climb_window).
  { apply (reach_event demo_climb demo_window (Update 0)).
    - apply reach_main. vm_compute. reflexivity.
    - vm_compute. reflexivity. }
  split; [exact R1|].
  destruct (world_matches_map demo_climb demo_climb_window R1)
    as (L & m & R & _ & _ & _ & G).
  split; [exact L|].
  vm_compute in R. inversion R; subst m. exact G.
Defined.

(** X12.  If the map loader never gives the same gem sprite twice,
    [gem_list] never holds a sprite twice, in any window of a run from
    [main]. *)
Theorem gem_list_has_no_repeats (h : Host) (w : GameWindow) :
  (forall lvl m, read_tmx h lvl = Some m -> NoDup (Valuables m)) ->
  reachable h w ->
  NoDup (gem_list w).
Proof.
  intros Maps. induction 1 as [w M | w ev w' _ IH D].
  - destruct (main_window h w M) as (m & R & _ & _ & _ & _ & _ & Gl & _).
    rewrite Gl. exact (Maps _ _ R).
  - destruct ev as [k mo | k mo | dt]; simpl in D.
    + inversion D; subst w'.
      destruct (on_key_press_frame h k mo w) as (_ & _ & _ & Gl & _).
      rewrite Gl. exact IH.
    + inversion D; subst w'.
      destruct (on_key_release_frame k mo w) as (_ & _ & _ & Gl & _).
      rewrite Gl. exact IH.
    + destruct (tick_summary h dt w w' D) as (w2 & n & E & _ & _ & Gl & _).
      rewrite Gl. apply NoDup_filter.
      destruct (check_level_end_world h _ _ E)
        as [S | (m2 & R2 & _ & _ & _ & _ & Gl2 & _)].
      * rewrite S, update_player_forces_calls. exact IH.
      * rewrite Gl2. exact (Maps _ _ R2).
Qed.

Lemma gem_list_has_no_repeats_witness :
  (forall lvl m, read_tmx demo lvl = Some m -> NoDup (Valuables m)) /\
  reachable demo demo_window /\
  NoDup (gem_list demo_window).
Proof.
  assert (Maps : forall lvl m,
             read_tmx demo lvl = Some m -> NoDup (Valuables m)).
  { intros lvl m. simpl. unfold demo_map.
    destruct (lvl =? 1)%Z; [|destruct (lvl =? 2)%Z; [|discriminate]];
      intros E; inversion E; simpl;
      repeat constructor; simpl; intuition discriminate. }
  assert (R0 : reachable demo demo_window)
    by (apply reach_main; vm_compute; reflexivity).
  split; [exact Maps|]. split; [exact R0|].
  exact (gem_list_has_no_repeats demo demo_window Maps R0).
Defined.

(** ** The sprite's texture lookups *)

Lemma valid_sprite_iff (p : PlayerSprite) :
  valid_sprite p = true <->
  (character_face_direction p = 0 \/ character_face_direction p = 1)%Z /\
  (0 <= current_texture p <= 7)%Z /\
  valid_texture (texture p) = true.
Proof.
  unfold valid_sprite, valid_face, valid_frame, RIGHT_FACING, LEFT_FACING.
  rewrite !andb_true_iff, orb_true_iff, !Z.eqb_eq, !Z.leb_le. tauto.
Qed.

Lemma valid_texture_of (f i : Z) :
  (f = 0 \/ f = 1)%Z -> (0 <= i <= 7)%Z ->
  valid_texture (idle_texture_pair f) = true /\
  valid_texture (jump_texture_pair f) = true /\
  valid_texture (fall_texture_pair f) = true /\
  valid_texture (walk_textures i f) = true.
Proof.
  intros F I. simpl. unfold valid_face, valid_frame, RIGHT_FACING, LEFT_FACING.
  rewrite !andb_true_iff, orb_true_iff, !Z.eqb_eq, !Z.leb_le. tauto.
Qed.

Lemma pymunk_moved_valid (h : Host) (e : list Command) (dx dy : Q)
    (p : PlayerSprite) :
  valid_sprite p = true -> valid_sprite (pymunk_moved h e dx dy p) = true.
Proof.
  rewrite !valid_sprite_iff. intros (F & I & T).
  assert (F' : (character_face_direction (update_facing dx p) = 0 \/
                character_face_direction (update_facing dx p) = 1)%Z).
  { destruct (update_facing_cases dx p) as [(_ & _ & E) | [(_ & _ & E) | E]];
      rewrite E; auto. }
  destruct (update_facing_fields dx p) as (_ & _ & C & _).
  assert (T' : texture (update_facing dx p) = texture p).
  { unfold update_facing. case_ifs; reflexivity. }
  rewrite pymunk_moved_face.
  split; [exact F'|].
  unfold pymunk_moved. cbv zeta.
  remember (set_odometer (float_add h (x_odometer (update_facing dx p)) dx)
                         (update_facing dx p)) as q eqn:Hq.
  assert (Fq : character_face_direction q
               = character_face_direction (update_facing dx p))
    by (rewrite Hq; reflexivity).
  assert (Cq : current_texture q = current_texture p)
    by (rewrite Hq; exact C).
  assert (Tq : texture q = texture p) by (rewrite Hq; exact T').
  rewrite <- Fq in F'.
  destruct (valid_texture_of _ _ F' I) as (V1 & V2 & V3 & _).
  assert (G : (0 <= current_texture (advance_walk q) <= 7)%Z /\
              valid_texture (texture (advance_walk q)) = true).
  { destruct (advance_walk_cases q) as [(E & _) | (_ & _ & Ct & Tx)].
    - rewrite E, Cq, Tq. auto.
    - rewrite Tx, Ct, Cq.
      assert (N : (0 <= (if (7 <? current_texture p + 1)%Z then 0
                         else current_texture p + 1) <= 7)%Z)
        by (destruct (7 <? current_texture p + 1)%Z eqn:B;
            [lia | apply Z.ltb_ge in B; lia]).
      split; [exact N|]. apply (valid_texture_of _ _ F' N). }
  case_ifs; simpl; rewrite ?Cq; auto.
Qed.

(** X13.  No texture lookup of the player sprite goes out of range: if the
    facing is 0 or 1, the frame is within 0..7 and the texture shown is one
    of the loaded ones, the same holds after an animation update; and it
    holds for the player of every window of a run from [main]. *)
Theorem sprite_indices_stay_valid (h : Host) :
  (forall e dx dy p,
     valid_sprite p = true ->
     valid_sprite (pymunk_moved h e dx dy p) = true)
  /\
  (forall w, reachable h w -> valid_sprite (player_sprite w) = true).
Proof.
  split; [intros e dx dy p; apply pymunk_moved_valid|].
  induction 1 as [w M | w ev w' _ IH D].
  - destruct (main_window h w M) as (m & _ & _ & _ & P & _).
    rewrite P. reflexivity.
  - destruct ev as [k mo | k mo | dt]; simpl in D.
    + inversion D; subst w'.
      destruct (on_key_press_frame h k mo w) as (P & _). rewrite P. exact IH.
    + inversion D; subst w'.
      destruct (on_key_release_frame k mo w) as (P & _). rewrite P. exact IH.
    + destruct (on_update_inv _ _ _ _ D) as (w2 & E & W). subst w'.
      destruct (physics_step_frame h (collect_gems h (manage_scrolling h w2)))
        as (_ & _ & _ & _ & _ & _ & _ & _ & _ & _ & Pl).
      destruct (collect_gems_frame h (manage_scrolling h w2)) as (P1 & _).
      destruct (manage_scrolling_frame h w2) as (P2 & _).
      rewrite Pl, P1, P2. apply pymunk_moved_valid.
      change (valid_sprite (player_sprite w2) = true).
      destruct (check_level_end_world h _ _ E)
        as [S | (m2 & _ & _ & P & _)].
      * rewrite S, update_player_forces_calls. exact IH.
      * rewrite P. reflexivity.
Qed.

Lemma sprite_indices_stay_valid_witness :
  valid_sprite (set_current_texture 7 PlayerSprite_init) = true /\
  valid_sprite (pymunk_moved demo [] (-11) 0
                  (set_current_texture 7 PlayerSprite_init)) = true /\
  current_texture (pymunk_moved demo [] (-11) 0
                     (set_current_texture 7 PlayerSprite_init)) = 0%Z /\
  reachable demo demo_window /\
  valid_sprite (player_sprite demo_window) = true.
Proof.
  destruct (sprite_indices_stay_valid demo) as [A B].
  assert (R0 : reachable demo demo_window)
    by (apply reach_main; vm_compute; reflexivity).
  split; [reflexivity|].
  split; [apply A; reflexivity|].
  split; [vm_compute; reflexivity|].
  split; [exact R0 | exact (B _ R0)].
Defined.

(** ** Which texture an update shows *)




(** ** Where the camera leaves the player *)

(** X15.  With the player inside all four margins the camera update does
    nothing: the window is unchanged and no viewport call is made. *)
Theorem camera_still_inside_band (h : Host) (w : GameWindow) :
  view_left w + 900 <= sprite_left h (player_sprite w) ->
  sprite_right h (player_sprite w) <= view_left w + 1920 - 900 ->
  sprite_top h (player_sprite w) <= view_bottom w + 1080 - 100 ->
  view_bottom w + 50 <= sprite_bottom h (player_sprite w) ->
  manage_scrolling h w = w /\ scroll_commands h w = [].
Proof.
  intros L R T B.
  assert (S : scroll_offsets h w = (view_left w, view_bottom w, false)).
  { apply Qltb_ge in L. apply Qltb_ge in R.
    apply Qltb_ge in T. apply Qltb_ge in B.
    unfold scroll_offsets, py_add, py_sub, LEFT_VIEWPORT_MARGIN,
      RIGHT_VIEWPORT_MARGIN, SCREEN_WIDTH, SCREEN_HEIGHT,
      TOP_VIEWPORT_MARGIN, BOTTOM_VIEWPORT_MARGIN.
    cbv beta iota zeta.
    rewrite L. cbv beta iota zeta. rewrite R. cbv beta iota zeta.
    rewrite T. cbv beta iota zeta. rewrite B. reflexivity. }
  unfold manage_scrolling, scroll_commands. rewrite S. auto.
Qed.

Lemma camera_still_inside_band_witness :
  manage_scrolling demo (set_view 0 (-800) demo_window)
  = set_view 0 (-800) demo_window.
Proof.
  apply (camera_still_inside_band demo (set_view 0 (-800) demo_window));
    vm_compute; discriminate.
Defined.

(** ** Held keys and the force of a tick *)

Lemma count_force_before_step (h : Host) (w w2 : GameWindow) :
  count is_force (before_step h w w2 ++ [Step])
  = (if xorb (left_pressed w) (right_pressed w) then 1 else 0)%nat.
Proof.
  unfold before_step. rewrite !count_app.
  assert (G : count is_force
                (gem_commands
                   (check_for_collision_with_list h (manage_scrolling h w2)))
              = 0%nat).
  { unfold count.
    induction (check_for_collision_with_list h (manage_scrolling h w2))
      as [|g hits IH]; simpl; [reflexivity | exact IH]. }
  assert (L : count is_force (level_commands h (update_player_forces h w))
              = 0%nat).
  { unfold level_commands.
    destruct (Qle_bool _ _); [destruct (read_tmx h _)|]; reflexivity. }
  assert (S : count is_force (scroll_commands h w2) = 0%nat).
  { unfold scroll_commands.
    destruct (scroll_offsets h w2) as [[vl vb] [|]]; reflexivity. }
  rewrite G, L, S.
  destruct (left_pressed w), (right_pressed w), (is_on_ground h (host w));
    reflexivity.
Qed.

(** X17.  A tick that returns applies one force to the player when exactly
    one of the two movement keys is held and none otherwise, and it leaves
    both flags as they were: a key held down pushes again on every tick
    until it is released. *)
Theorem force_iff_one_key_held (h : Host) (dt : Q) (w w' : GameWindow) :
  on_update h dt w = Some w' ->
  count is_force (host w')
  = (count is_force (host w)
     + (if xorb (left_pressed w) (right_pressed w) then 1 else 0))%nat /\
  left_pressed w' = left_pressed w /\
  right_pressed w' = right_pressed w.
Proof.
  intros U. destruct (on_update_inv _ _ _ _ U) as (w2 & E & W). subst w'.
  split.
  - rewrite (tick_log h w w2 E), count_app, count_force_before_step.
    reflexivity.
  - destruct (after_level_check h w2) as (_ & L & R & _).
    destruct (check_level_end_frame h _ w2 E) as (L2 & R2 & _).
    rewrite update_player_forces_calls in L2, R2. simpl in L2, R2.
    split; congruence.
Qed.

Lemma force_iff_one_key_held_witness :
  exists w1 w2,
    on_update demo 0 (on_key_press demo key.A 0 demo_window) = Some w1 /\
    on_update demo 0 w1 = Some w2 /\
    count is_force (host w1) = 1%nat /\
    count is_force (host w2) = 2%nat.
Proof.
  destruct (on_update demo 0 (on_key_press demo key.A 0 demo_window))
    as [w1|] eqn:U1; [|vm_compute in U1; discriminate U1].
  destruct (on_update demo 0 w1) as [w2|] eqn:U2;
    [|vm_compute in U1; inversion U1; subst w1;
      vm_compute in U2; discriminate U2].
  exists w1, w2. split; [reflexivity|]. split; [exact U2|].
  destruct (force_iff_one_key_held demo 0 _ w1 U1) as (F1 & L1 & R1).
  destruct (force_iff_one_key_held demo 0 w1 w2 U2) as (F2 & _).
  rewrite F2, L1, R1, F1. split; reflexivity.
Defined.
